(** * Gallery photo downloader (index.js): a shallow embedding

    The script drives a browser through a photo gallery: click the image
    link, wait until the download is on disk, press "next", repeat.  Every
    interaction with the outside (clock, download directory, browser,
    console, process exit) is a primitive of the monad [M] below; what the
    outside answers is read from an oracle [Env], so that a theorem
    quantified over [Env] speaks about every possible run.

    What the model takes from the platform: [fs.mkdir] and [fs.readdir]
    succeed on the download directory; [browser.close()], [page.url()]
    and the console do not throw; every other call into the browser may
    reject.  The browser is the only writer of the download directory.
    Loops take fuel: a run that has not ended when the fuel is used up
    ends as [OutOfFuel], with the trace it has produced so far. *)

From Stdlib Require Import String Ascii List ZArith Lia Bool Arith.
Import ListNotations.
Local Open Scope string_scope.
Local Open Scope list_scope.

(** ** JavaScript values the script manipulates *)

(** A directory entry as [fs.readdir] reports it: a name with at least one
    character (no file system has an entry with an empty name). *)
Record Filename : Type := MkFilename { first_char : ascii; rest_chars : string }.

Definition name (f : Filename) : string := String (first_char f) (rest_chars f).

(** [file s] is the entry called [s]; used to write concrete listings. *)
Definition file (s : string) : Filename :=
  match s with
  | String c t => MkFilename c t
  | EmptyString => MkFilename "_" ""
  end.

(** [String.prototype.endsWith(searchString)] with the default end position:
    false when the search string is longer than the receiver, otherwise the
    comparison of the last [length searchString] characters. *)
Definition endsWith (s searchString : string) : bool :=
  let len := String.length s in
  let searchLength := String.length searchString in
  if Nat.ltb len searchLength then false
  else String.eqb (substring (len - searchLength) searchLength s) searchString.

(** [Array.prototype.includes] on an array of strings. *)
Definition includes (l : list Filename) (f : Filename) : bool :=
  existsb (fun g => String.eqb (name g) (name f)) l.

(** Truthiness of the result of [Array.prototype.find] on strings:
    [undefined] and the empty string are falsy. *)
Definition truthy (v : option Filename) : bool :=
  match v with
  | None => false
  | Some f => negb (String.eqb (name f) "")
  end.

(** Error values.  [Error] is [new Error(message)] as the script itself
    creates it; [BrowserError] stands for whatever the browser automation
    rejects with (a [TimeoutError], a protocol error, ...).  They are
    distinct objects, whatever their messages. *)
Inductive JsError : Type :=
| Error (message : string)
| BrowserError (message : string).

(** ** CONFIG *)

Module TIMEOUTS.
Definition DOWNLOAD : Z := 30000.
Definition ELEMENT_VISIBLE : Z := 15000.
Definition ANIMATION : Z := 2000.
Definition POLL_INTERVAL : Z := 500.
End TIMEOUTS.

Inductive Selector : Type := IMAGE_LINK | NEXT_BUTTON.

(** The double quote character, for texts that hold one. *)
Definition dquote : string := String (ascii_of_nat 34) "".

Module SELECTORS.
Definition text (s : Selector) : string :=
  match s with
  | IMAGE_LINK =>
      ("[title=" ++ dquote ++ "Zobraziť obrázok v novom okne" ++ dquote
       ++ "]")%string
  | NEXT_BUTTON => "div ::-p-text(chevron_right)"
  end.
End SELECTORS.

Definition DOWNLOAD_DIR : string := "photos".

(** Everything the script prints.  The first four are CONFIG.MESSAGES, the
    others are the literal texts of the remaining console calls. *)
Inductive Message : Type :=
| DOWNLOAD_START (n : nat)
| DOWNLOAD_SUCCESS (name : string)
| NAVIGATION_PROGRESS (n : nat)
| COMPLETION (count : nat)
| CURRENT_URL (url : string)
| END_OF_ALBUM
| MISSING_ARGUMENT
| USAGE (line : nat)
| INVALID_URL
| COMMON_ISSUES (line : nat)
| ERROR_MESSAGE (e : JsError)
| CRITICAL_ERROR (e : JsError).

(** ** The outside world *)

(** What a [waitForSelector] call settles to. *)
Inductive Awaited : Type :=
| Handle
| Null
| Rejected (message : string).

(** The oracle.  [env_now i] is what the [i]-th call of [Date.now()]
    returns, [env_readdir i] what the [i]-th [readdir] finds in the
    download directory when a browser session is open, and for the
    [i]-th call into the browser [env_call i] tells whether it rejects
    (and with what message), [env_wait i] what a [waitForSelector] settles
    to and [env_url i] what [page.url()] reads. *)
Record Env : Type := MkEnv {
  env_now : nat -> Z;
  env_readdir : nat -> list Filename;
  env_call : nat -> option string;
  env_wait : nat -> Awaited;
  env_url : nat -> string
}.

(** The state the script cannot see but acts on.  [dir] is the content of
    the download directory ([[]] also while the directory does not exist
    yet); [session] tells whether a launched browser is still open.  The
    browser is the only writer of the directory, so its content changes
    only while a session is open. *)
Record World : Type := MkWorld {
  dir : list Filename;
  session : bool;
  nclock : nat;
  nreaddir : nat;
  ncall : nat
}.

(** What the script does to the outside, in order. *)
Inductive Event : Type :=
| EvNow
| EvMkdir (path : string)
| EvReaddir (path : string)
| EvSleep (ms : Z)
| EvLaunch
| EvNewPage
| EvCreateCDPSession
| EvSend (downloadPath : string)
| EvGoto (url : string)
| EvPageClick (s : Selector)
| EvWaitForSelector (s : Selector) (timeout : Z)
| EvHandleClick
| EvClose
| EvLog (m : Message)
| EvError (m : Message)
| EvExit (code : Z).

(** ** The monad *)

(** How a computation ends: with a value, with an exception (a rejected
    promise), by [process.exit], or because the fuel given to a loop was
    used up before the loop ended. *)
Inductive Outcome (A : Type) : Type :=
| Ret (a : A)
| Throw (e : JsError)
| Exit (code : Z)
| OutOfFuel.
Arguments Ret {A} a.
Arguments Throw {A} e.
Arguments Exit {A} code.
Arguments OutOfFuel {A}.

Definition M (A : Type) : Type := World -> Outcome A * World * list Event.

Definition ret {A} (a : A) : M A := fun w => (Ret a, w, []).

Definition bind {A B} (m : M A) (k : A -> M B) : M B :=
  fun w =>
    match m w with
    | (Ret a, w1, t1) =>
        match k a w1 with (o, w2, t2) => (o, w2, t1 ++ t2) end
    | (Throw e, w1, t1) => (Throw e, w1, t1)
    | (Exit c, w1, t1) => (Exit c, w1, t1)
    | (OutOfFuel, w1, t1) => (OutOfFuel, w1, t1)
    end.

Notation "x <- m ;; k" := (bind m (fun x => k))
  (at level 61, m at next level, right associativity).
Notation "m ;; k" := (bind m (fun _ => k))
  (at level 61, right associativity).

Definition throw {A} (e : JsError) : M A := fun w => (Throw e, w, []).

(** [try { body } catch (error) { handler }]: only exceptions are caught;
    [process.exit] ends the process where it stands. *)
Definition try_catch {A} (body : M A) (handler : JsError -> M A) : M A :=
  fun w =>
    match body w with
    | (Throw e, w1, t1) =>
        match handler e w1 with (o, w2, t2) => (o, w2, t1 ++ t2) end
    | r => r
    end.

(** [try { body } finally { cleanup }]: the cleanup runs after a value and
    after an exception, and the body's completion stands unless the cleanup
    itself ends abruptly. *)
Definition try_finally {A} (body : M A) (cleanup : M unit) : M A :=
  fun w =>
    match body w with
    | (Ret a, w1, t1) =>
        match cleanup w1 with
        | (Ret _, w2, t2) => (Ret a, w2, t1 ++ t2)
        | (Throw e, w2, t2) => (Throw e, w2, t1 ++ t2)
        | (Exit c, w2, t2) => (Exit c, w2, t1 ++ t2)
        | (OutOfFuel, w2, t2) => (OutOfFuel, w2, t1 ++ t2)
        end
    | (Throw e, w1, t1) =>
        match cleanup w1 with
        | (Ret _, w2, t2) => (Throw e, w2, t1 ++ t2)
        | (Throw e', w2, t2) => (Throw e', w2, t1 ++ t2)
        | (Exit c, w2, t2) => (Exit c, w2, t1 ++ t2)
        | (OutOfFuel, w2, t2) => (OutOfFuel, w2, t1 ++ t2)
        end
    | r => r
    end.

(** ** Primitives *)

Section Script.

Variable env : Env.

Definition emit (e : Event) : M unit := fun w => (Ret tt, w, [e]).

Definition console_log (m : Message) : M unit := emit (EvLog m).
Definition console_error (m : Message) : M unit := emit (EvError m).

Definition process_exit {A} (code : Z) : M A :=
  fun w => (Exit code, w, [EvExit code]).

Definition Date_now : M Z :=
  fun w =>
    (Ret (env_now env (nclock w)),
     MkWorld (dir w) (session w) (S (nclock w)) (nreaddir w) (ncall w),
     [EvNow]).

(** The listing [readdir] reports next: the browser's doing while a
    session is open, the directory as it was otherwise. *)
Definition listing (w : World) : list Filename :=
  if session w then env_readdir env (nreaddir w) else dir w.

Definition fs_readdir (directory : string) : M (list Filename) :=
  fun w =>
    (Ret (listing w),
     MkWorld (listing w) (session w) (nclock w) (S (nreaddir w)) (ncall w),
     [EvReaddir directory]).

(** [fs.mkdir(path, { recursive: true })]: creates what is missing and
    leaves an existing directory and its entries alone. *)
Definition fs_mkdir (path : string) : M unit := emit (EvMkdir path).

(** [await new Promise(resolve => setTimeout(resolve, ms))]. *)
Definition sleep (ms : Z) : M unit := emit (EvSleep ms).

Definition called (w : World) : World :=
  MkWorld (dir w) (session w) (nclock w) (nreaddir w) (S (ncall w)).

(** A call into the browser that resolves to nothing or rejects. *)
Definition browser_call (e : Event) : M unit :=
  fun w =>
    match env_call env (ncall w) with
    | None => (Ret tt, called w, [e])
    | Some err => (Throw (BrowserError err), called w, [e])
    end.

Definition puppeteer_launch : M unit :=
  fun w =>
    match env_call env (ncall w) with
    | None =>
        (Ret tt,
         MkWorld (dir w) true (nclock w) (nreaddir w) (S (ncall w)),
         [EvLaunch])
    | Some err => (Throw (BrowserError err), called w, [EvLaunch])
    end.

Definition browser_newPage : M unit := browser_call EvNewPage.
Definition page_createCDPSession : M unit := browser_call EvCreateCDPSession.
Definition client_send (downloadPath : string) : M unit :=
  browser_call (EvSend downloadPath).
Definition page_goto (url : string) : M unit := browser_call (EvGoto url).
Definition page_click (s : Selector) : M unit := browser_call (EvPageClick s).
Definition handle_click : M unit := browser_call EvHandleClick.

(** [page.url()] is synchronous and reads the page's current address. *)
Definition page_url : M string := fun w => (Ret (env_url env (ncall w)), w, []).

(** [page.waitForSelector(selector, { visible: true, timeout })]: [true]
    for an element handle, [false] for [null]. *)
Definition page_waitForSelector (s : Selector) (timeout : Z) : M bool :=
  fun w =>
    match env_wait env (ncall w) with
    | Handle => (Ret true, called w, [EvWaitForSelector s timeout])
    | Null => (Ret false, called w, [EvWaitForSelector s timeout])
    | Rejected err =>
        (Throw (BrowserError err), called w, [EvWaitForSelector s timeout])
    end.

(** [browser.close()] ends the session. *)
Definition browser_close : M unit :=
  fun w =>
    (Ret tt,
     MkWorld (dir w) false (nclock w) (nreaddir w) (S (ncall w)),
     [EvClose]).

(** ** Core functionality *)

(** Decimal text of a length, as a template literal prints it. *)
Fixpoint digits (fuel n : nat) (acc : string) : string :=
  match fuel with
  | O => acc
  | S fuel' =>
      let acc' := String (ascii_of_nat (48 + n mod 10)) acc in
      if Nat.eqb (n / 10) 0 then acc' else digits fuel' (n / 10) acc'
  end.

Definition toString (n : nat) : string := digits (S n) n "".

Definition directory_not_empty (directory : string) (count : nat) : JsError :=
  Error ("Tartget directory must be empty. Directory " ++ directory ++
         " contains " ++ toString count ++ " files - aborting")%string.

Definition checkDirectoryEmpty (directory : string) : M unit :=
  files <- fs_readdir directory ;;
  if Nat.ltb 0 (List.length files)
  then throw (directory_not_empty directory (List.length files))
  else ret tt.

Definition download_timed_out : JsError := Error "Download timed out".

Definition partial_marker : string := ".crdownload".

(** The [while] loop of [waitForDownloadCompletion]; [fuel] bounds the
    number of iterations. *)
Fixpoint poll (fuel : nat) (directory : string) (startTime : Z)
    (filesBefore : list Filename) : M Filename :=
  match fuel with
  | O => fun w => (OutOfFuel, w, [])
  | S fuel' =>
      now <- Date_now ;;
      if (now - startTime <? TIMEOUTS.DOWNLOAD)%Z then
        filesAfter <- fs_readdir directory ;;
        let newFiles :=
          filter (fun f => negb (includes filesBefore f)) filesAfter in
        let completedFile :=
          find (fun f => negb (endsWith (name f) partial_marker)) newFiles in
        match completedFile with
        | Some f =>
            if truthy completedFile then ret f
            else sleep TIMEOUTS.POLL_INTERVAL ;;
                 poll fuel' directory startTime filesBefore
        | None =>
            sleep TIMEOUTS.POLL_INTERVAL ;;
            poll fuel' directory startTime filesBefore
        end
      else throw download_timed_out
  end.

Definition waitForDownloadCompletion (fuel : nat) (directory : string)
    : M Filename :=
  startTime <- Date_now ;;
  filesBefore <- fs_readdir directory ;;
  poll fuel directory startTime filesBefore.

(** ** Browser setup *)

Definition configureDownloads (downloadPath : string) : M unit :=
  page_createCDPSession ;;
  client_send downloadPath.

Definition setupBrowser : M unit :=
  puppeteer_launch ;;
  browser_newPage.

(** ** Gallery navigation *)

Definition handleNextButton (photoCount : nat) : M bool :=
  try_catch
    (url <- page_url ;;
     console_log (CURRENT_URL url) ;;
     nextContainer <-
       page_waitForSelector NEXT_BUTTON TIMEOUTS.ELEMENT_VISIBLE ;;
     if negb nextContainer then ret false
     else
       console_log (NAVIGATION_PROGRESS photoCount) ;;
       handle_click ;;
       page_waitForSelector IMAGE_LINK TIMEOUTS.ELEMENT_VISIBLE ;;
       sleep TIMEOUTS.ANIMATION ;;
       ret true)
    (fun error => console_log END_OF_ALBUM ;; ret false).

(** ** Main execution *)

(** The [while (true)] loop of [main]; it returns [photoCount] as the
    [break] leaves it.  [fuel] bounds the number of iterations, and the
    number of polls of each download. *)
Fixpoint gallery_loop (fuel : nat) (downloadPath : string) (photoCount : nat)
    : M nat :=
  match fuel with
  | O => fun w => (OutOfFuel, w, [])
  | S fuel' =>
      console_log (DOWNLOAD_START photoCount) ;;
      page_click IMAGE_LINK ;;
      filename <- waitForDownloadCompletion fuel downloadPath ;;
      console_log (DOWNLOAD_SUCCESS (name filename)) ;;
      hasNext <- handleNextButton (photoCount + 1) ;;
      if negb hasNext then ret photoCount
      else gallery_loop fuel' downloadPath (photoCount + 1)
  end.

(** The body of the [try] block of [main]. *)
Definition main_try (fuel : nat) (BASE_URL downloadPath : string) : M unit :=
  page_goto BASE_URL ;;
  photoCount <- gallery_loop fuel downloadPath 0 ;;
  console_log (COMPLETION (photoCount + 1)).

(** [path.join(__dirname, segment)] for the normalised absolute
    [__dirname] Node provides and a plain segment. *)
Definition path_join (dirname segment : string) : string :=
  if String.eqb dirname "/" then ("/" ++ segment)%string
  else (dirname ++ "/" ++ segment)%string.

Definition main (fuel : nat) (dirname BASE_URL : string) : M unit :=
  let downloadPath := path_join dirname DOWNLOAD_DIR in
  fs_mkdir downloadPath ;;
  try_catch (checkDirectoryEmpty downloadPath)
    (fun error => console_error (ERROR_MESSAGE error) ;; process_exit 1) ;;
  setupBrowser ;;
  configureDownloads downloadPath ;;
  try_finally (main_try fuel BASE_URL downloadPath) browser_close.

(** [main().catch(error => ...)]. *)
Definition main_catch (fuel : nat) (dirname BASE_URL : string) : M unit :=
  try_catch (main fuel dirname BASE_URL)
    (fun error => console_error (CRITICAL_ERROR error) ;; process_exit 1).

(** ** URL validation *)

(** [new URL(url)] runs the basic URL parser of the URL Standard on [url]
    with no base URL.  The states the parser goes through up to the end of
    the scheme are written out; [url_tail scheme remaining] stands for the
    rest of the platform's parser, and tells whether it accepts what
    follows the colon. *)
Variable url_tail : string -> list ascii -> bool.

Definition is_C0_control_or_space (c : ascii) : bool :=
  Nat.leb (nat_of_ascii c) 32.

Definition is_ASCII_tab_or_newline (c : ascii) : bool :=
  let n := nat_of_ascii c in
  Nat.eqb n 9 || Nat.eqb n 10 || Nat.eqb n 13.

Definition is_ASCII_upper_alpha (c : ascii) : bool :=
  let n := nat_of_ascii c in Nat.leb 65 n && Nat.leb n 90.

Definition is_ASCII_lower_alpha (c : ascii) : bool :=
  let n := nat_of_ascii c in Nat.leb 97 n && Nat.leb n 122.

Definition is_ASCII_alpha (c : ascii) : bool :=
  is_ASCII_upper_alpha c || is_ASCII_lower_alpha c.

Definition is_ASCII_digit (c : ascii) : bool :=
  let n := nat_of_ascii c in Nat.leb 48 n && Nat.leb n 57.

Definition ASCII_lowercase (c : ascii) : ascii :=
  if is_ASCII_upper_alpha c then ascii_of_nat (nat_of_ascii c + 32) else c.

Fixpoint strip_leading (input : list ascii) : list ascii :=
  match input with
  | c :: rest => if is_C0_control_or_space c then strip_leading rest else input
  | [] => []
  end.

Definition strip (input : list ascii) : list ascii :=
  rev (strip_leading (rev (strip_leading input))).

Definition remove_tab_or_newline (input : list ascii) : list ascii :=
  filter (fun c => negb (is_ASCII_tab_or_newline c)) input.

(** Scheme state: letters, digits, [+], [-] and [.] extend the buffer, a
    colon ends the scheme, anything else (the end of the input too) sends
    the parser to the no scheme state, which fails for want of a base. *)
Fixpoint scheme_state (buffer : string) (input : list ascii)
    : option (string * list ascii) :=
  match input with
  | c :: rest =>
      if is_ASCII_alpha c || is_ASCII_digit c ||
         Ascii.eqb c "+" || Ascii.eqb c "-" || Ascii.eqb c "."
      then scheme_state (buffer ++ String (ASCII_lowercase c) "")%string rest
      else if Ascii.eqb c ":" then Some (buffer, rest)
      else None
  | [] => None
  end.

(** Scheme start state: a letter opens a scheme, anything else sends the
    parser to the no scheme state. *)
Definition scheme_start_state (input : list ascii)
    : option (string * list ascii) :=
  match input with
  | c :: rest =>
      if is_ASCII_alpha c
      then scheme_state (String (ASCII_lowercase c) "") rest
      else None
  | [] => None
  end.

(** [true] when [new URL(input)] returns, [false] when it throws. *)
Definition URL_constructor (input : string) : bool :=
  match scheme_start_state
          (remove_tab_or_newline (strip (list_ascii_of_string input))) with
  | Some (scheme, remaining) => url_tail scheme remaining
  | None => false
  end.

Definition isValidUrl (url : string) : bool :=
  if URL_constructor url then true else false.

(** ** The script, top to bottom *)

(** [argv] is [process.argv] and [dirname] is [__dirname]. *)
Definition script (argv : list string) (dirname : string) (fuel : nat)
    : M unit :=
  if Nat.ltb (List.length argv) 3 then
    console_error MISSING_ARGUMENT ;;
    console_log (USAGE 0) ;;
    console_log (USAGE 1) ;;
    console_log (USAGE 2) ;;
    process_exit 1
  else if negb (isValidUrl (nth 2 argv "")) then
    console_error INVALID_URL ;;
    console_log (COMMON_ISSUES 0) ;;
    console_log (COMMON_ISSUES 1) ;;
    console_log (COMMON_ISSUES 2) ;;
    console_log (COMMON_ISSUES 3) ;;
    process_exit 1
  else main_catch fuel dirname (nth 2 argv "").

End Script.

(** The exit code of the process: 0 when the script runs to its end, the
    argument of [process.exit] otherwise; none while a loop is running. *)
Definition exit_code {A} (o : Outcome A) : option Z :=
  match o with
  | Ret _ => Some 0%Z
  | Exit code => Some code
  | Throw _ => Some 1%Z
  | OutOfFuel => None
  end.

Definition outcome {A} (r : Outcome A * World * list Event) : Outcome A :=
  fst (fst r).
Definition world {A} (r : Outcome A * World * list Event) : World :=
  snd (fst r).
Definition trace {A} (r : Outcome A * World * list Event) : list Event :=
  snd r.

(** * Vocabulary of the properties *)

(** ** Snapshot diffing *)

(** A new, finished file: absent from the "before" snapshot and without
    the partial-download marker. *)
Definition qualifies (before : list Filename) (f : Filename) : bool :=
  negb (includes before f) && negb (endsWith (name f) partial_marker).

(** [f] is the first qualifying entry of the snapshot [after]. *)
Definition first_qualifying (before after : list Filename) (f : Filename)
    : Prop :=
  exists l1 l2,
    after = l1 ++ f :: l2 /\ qualifies before f = true /\
    forall g, In g l1 -> qualifies before g = false.

Definition none_qualifying (before after : list Filename) : Prop :=
  forall g, In g after -> qualifies before g = false.

(** What one pass of the diff computes, in the words of the two
    predicates above. *)
Definition completed (before after : list Filename) : option Filename :=
  find (fun f => negb (endsWith (name f) partial_marker))
       (filter (fun f => negb (includes before f)) after).

(** ** What the download watcher sees *)

(** The listing the [k]-th [readdir] from world [w] on reports. *)
Definition observed (env : Env) (w : World) (k : nat) : list Filename :=
  if session w then env_readdir env (nreaddir w + k) else dir w.

(** The world after one clock reading and one [readdir]. *)
Definition polled (env : Env) (w : World) : World :=
  MkWorld (listing env w) (session w) (S (nclock w)) (S (nreaddir w)) (ncall w).

Definition ticked (w : World) : World :=
  MkWorld (dir w) (session w) (S (nclock w)) (nreaddir w) (ncall w).

(** What a call of [waitForDownloadCompletion] made in world [w] sees:
    the clock reading it starts from, the "before" snapshot, and at the
    [i]-th pass of its loop the time elapsed and the "after" snapshot. *)
Definition start_time (env : Env) (w : World) : Z := env_now env (nclock w).

Definition before_snapshot (env : Env) (w : World) : list Filename :=
  observed env w 0.

Definition elapsed (env : Env) (w : World) (i : nat) : Z :=
  (env_now env (nclock w + S i) - start_time env w)%Z.

Definition poll_snapshot (env : Env) (w : World) (i : nat) : list Filename :=
  observed env w (S i).

(** ** Shapes of traces *)

(** The world after three calls into the browser. *)
Definition called3 (w : World) : World := called (called (called w)).

(** The shapes the trace of one pagination step can take, with the value
    the step returns: [true] is [Advanced], [false] is [EndOfGallery]. *)
Inductive pagination_trace (photoCount : nat) : bool -> list Event -> Prop :=
| PT_next_rejected url :
    pagination_trace photoCount false
      [EvLog (CURRENT_URL url);
       EvWaitForSelector NEXT_BUTTON TIMEOUTS.ELEMENT_VISIBLE;
       EvLog END_OF_ALBUM]
| PT_next_null url :
    pagination_trace photoCount false
      [EvLog (CURRENT_URL url);
       EvWaitForSelector NEXT_BUTTON TIMEOUTS.ELEMENT_VISIBLE]
| PT_click_rejected url :
    pagination_trace photoCount false
      [EvLog (CURRENT_URL url);
       EvWaitForSelector NEXT_BUTTON TIMEOUTS.ELEMENT_VISIBLE;
       EvLog (NAVIGATION_PROGRESS photoCount); EvHandleClick;
       EvLog END_OF_ALBUM]
| PT_image_rejected url :
    pagination_trace photoCount false
      [EvLog (CURRENT_URL url);
       EvWaitForSelector NEXT_BUTTON TIMEOUTS.ELEMENT_VISIBLE;
       EvLog (NAVIGATION_PROGRESS photoCount); EvHandleClick;
       EvWaitForSelector IMAGE_LINK TIMEOUTS.ELEMENT_VISIBLE;
       EvLog END_OF_ALBUM]
| PT_advanced url :
    pagination_trace photoCount true
      [EvLog (CURRENT_URL url);
       EvWaitForSelector NEXT_BUTTON TIMEOUTS.ELEMENT_VISIBLE;
       EvLog (NAVIGATION_PROGRESS photoCount); EvHandleClick;
       EvWaitForSelector IMAGE_LINK TIMEOUTS.ELEMENT_VISIBLE;
       EvSleep TIMEOUTS.ANIMATION].

(** What the download watcher does to the outside: it reads the clock,
    lists the directory and sleeps for the poll interval. *)
Definition is_watcher_event (e : Event) : bool :=
  match e with
  | EvNow | EvReaddir _ => true
  | EvSleep ms => Z.eqb ms TIMEOUTS.POLL_INTERVAL
  | _ => false
  end.

Definition watcher_trace (t : list Event) : Prop :=
  Forall (fun e => is_watcher_event e = true) t.

(** The first two events of an iteration. *)
Definition iteration_start (photoCount : nat) : list Event :=
  [EvLog (DOWNLOAD_START photoCount); EvPageClick IMAGE_LINK].

(** The shapes the trace of the traversal loop can take, with the loop's
    outcome, from the iteration whose counter is [photoCount] on. *)
Inductive loop_trace : nat -> Outcome nat -> list Event -> Prop :=
| LT_out_of_fuel photoCount :
    loop_trace photoCount OutOfFuel []
| LT_click_rejected photoCount message :
    loop_trace photoCount (Throw (BrowserError message))
      (iteration_start photoCount)
| LT_still_waiting photoCount tw :
    watcher_trace tw ->
    loop_trace photoCount OutOfFuel (iteration_start photoCount ++ tw)
| LT_timed_out photoCount tw :
    watcher_trace tw ->
    loop_trace photoCount (Throw download_timed_out)
      (iteration_start photoCount ++ tw ++ [EvNow])
| LT_end photoCount tw filename tn :
    watcher_trace tw ->
    pagination_trace (photoCount + 1) false tn ->
    loop_trace photoCount (Ret photoCount)
      (iteration_start photoCount ++ tw ++
       [EvLog (DOWNLOAD_SUCCESS filename)] ++ tn)
| LT_advance photoCount tw filename tn o t :
    watcher_trace tw ->
    pagination_trace (photoCount + 1) true tn ->
    loop_trace (photoCount + 1) o t ->
    loop_trace photoCount o
      (iteration_start photoCount ++ tw ++
       [EvLog (DOWNLOAD_SUCCESS filename)] ++ tn ++ t).

(** The loop started with [fuel] at counter [photoCount] in world [w]
    reaches, through iterations that download a photo and advance, the
    start of an iteration with [fuel'] left, at counter [photoCount'] in
    world [w'], having produced the trace [t]. *)
Inductive reaches_iteration (env : Env) (d : string) :
    nat -> nat -> World -> nat -> nat -> World -> list Event -> Prop :=
| RI_here fuel photoCount w :
    reaches_iteration env d fuel photoCount w fuel photoCount w []
| RI_advance fuel photoCount w filename w1 t1 w2 t2 fuel' photoCount' w' t :
    env_call env (ncall w) = None ->
    waitForDownloadCompletion env (S fuel) d (called w)
      = (Ret filename, w1, t1) ->
    handleNextButton env (photoCount + 1) w1 = (Ret true, w2, t2) ->
    reaches_iteration env d fuel (photoCount + 1) w2 fuel' photoCount' w' t ->
    reaches_iteration env d (S fuel) photoCount w fuel' photoCount' w'
      (iteration_start photoCount ++ t1 ++
       [EvLog (DOWNLOAD_SUCCESS (name filename))] ++ t2 ++ t).

Definition read (env : Env) (w : World) : World :=
  MkWorld (listing env w) (session w) (nclock w) (S (nreaddir w)) (ncall w).

Definition closed (w : World) : World :=
  MkWorld (dir w) false (nclock w) (nreaddir w) (S (ncall w)).

(** The world once the browser is launched and set up. *)
Definition set_up (env : Env) (w : World) : World :=
  MkWorld (listing env w) true (nclock w) (S (nreaddir w))
          (S (S (S (S (ncall w))))).

Definition setup_trace (d : string) : list Event :=
  [EvMkdir d; EvReaddir d; EvLaunch; EvNewPage; EvCreateCDPSession; EvSend d].

(** The four calls that launch and configure the browser all resolve. *)
Definition setup_resolves (env : Env) (w : World) : Prop :=
  env_call env (ncall w) = None /\
  env_call env (S (ncall w)) = None /\
  env_call env (S (S (ncall w))) = None /\
  env_call env (S (S (S (ncall w)))) = None.

(** The shapes the trace of [main().catch(...)] can take, with its
    outcome. *)
Inductive run_trace (d url : string) : Outcome unit -> list Event -> Prop :=
| RT_directory_not_empty n :
    0 < n ->
    run_trace d url (Exit 1%Z)
      [EvMkdir d; EvReaddir d;
       EvError (ERROR_MESSAGE (directory_not_empty d n)); EvExit 1%Z]
| RT_setup_rejected message t :
    (forall e, In e t -> In e (setup_trace d)) ->
    run_trace d url (Exit 1%Z)
      (t ++ [EvError (CRITICAL_ERROR (BrowserError message)); EvExit 1%Z])
| RT_goto_rejected message :
    run_trace d url (Exit 1%Z)
      (setup_trace d ++ [EvGoto url] ++
       [EvClose; EvError (CRITICAL_ERROR (BrowserError message)); EvExit 1%Z])
| RT_loop_thrown e tl :
    loop_trace 0 (Throw e) tl ->
    run_trace d url (Exit 1%Z)
      (setup_trace d ++ [EvGoto url] ++ tl ++
       [EvClose; EvError (CRITICAL_ERROR e); EvExit 1%Z])
| RT_loop_running tl :
    loop_trace 0 OutOfFuel tl ->
    run_trace d url OutOfFuel (setup_trace d ++ [EvGoto url] ++ tl)
| RT_done photoCount tl :
    loop_trace 0 (Ret photoCount) tl ->
    run_trace d url (Ret tt)
      (setup_trace d ++ [EvGoto url] ++ tl ++
       [EvLog (COMPLETION (photoCount + 1)); EvClose]).

(** ** Counting transitions in a trace *)

(** A download is confirmed complete where the script prints the success
    message: right after the watcher returns. *)
Definition is_confirmation (e : Event) : bool :=
  match e with EvLog (DOWNLOAD_SUCCESS _) => true | _ => false end.

(** The pagination step returns [Advanced] right after the settle delay. *)
Definition is_advance (e : Event) : bool :=
  match e with EvSleep ms => Z.eqb ms TIMEOUTS.ANIMATION | _ => false end.

(** The click that starts a download. *)
Definition is_download_click (e : Event) : bool :=
  match e with EvPageClick IMAGE_LINK => true | _ => false end.

Definition count (p : Event -> bool) (t : list Event) : nat :=
  List.length (filter p t).

Definition confirmations : list Event -> nat := count is_confirmation.
Definition advances : list Event -> nat := count is_advance.
Definition download_clicks : list Event -> nat := count is_download_click.

(** The count the last completion message of a trace reports. *)
Fixpoint reported_count (t : list Event) : option nat :=
  match t with
  | [] => None
  | e :: t' =>
      match reported_count t', e with
      | Some n, _ => Some n
      | None, EvLog (COMPLETION n) => Some n
      | None, _ => None
      end
  end.

(** The file names the success messages of a trace carry, in order. *)
Definition confirmed_names (t : list Event) : list string :=
  flat_map (fun e => match e with
                     | EvLog (DOWNLOAD_SUCCESS n) => [n]
                     | _ => []
                     end) t.

(** ** The iterations of the traversal loop *)

(** The traversal loop replayed on the calls it makes, to tell what
    happened in it rather than what it printed: the files the watcher
    returned, in order, and the number of times the pagination step
    returned [true].  An iteration whose image-link click rejects, or
    whose watcher ends without a file, ends the loop and adds nothing; one
    whose pagination step does not return [true] adds its file and ends
    the loop. *)
Fixpoint loop_history (env : Env) (fuel : nat) (downloadPath : string)
    (photoCount : nat) (w : World) : list Filename * nat :=
  match fuel with
  | O => ([], 0)
  | S fuel' =>
      match page_click env IMAGE_LINK w with
      | (Ret _, w0, _) =>
          match waitForDownloadCompletion env fuel downloadPath w0 with
          | (Ret filename, w1, _) =>
              match handleNextButton env (photoCount + 1) w1 with
              | (Ret true, w2, _) =>
                  let (files, n) :=
                    loop_history env fuel' downloadPath (photoCount + 1) w2 in
                  (filename :: files, S n)
              | _ => ([filename], 0)
              end
          | _ => ([], 0)
          end
      | _ => ([], 0)
      end
  end.

(** The files [waitForDownloadCompletion] returned in the loop, and the
    number of times [handleNextButton] returned [true] in it. *)
Definition watcher_returns (env : Env) (fuel : nat) (downloadPath : string)
    (photoCount : nat) (w : World) : list Filename :=
  fst (loop_history env fuel downloadPath photoCount w).

Definition pagination_advances (env : Env) (fuel : nat)
    (downloadPath : string) (photoCount : nat) (w : World) : nat :=
  snd (loop_history env fuel downloadPath photoCount w).

Definition missing_argument_trace : list Event :=
  [EvError MISSING_ARGUMENT; EvLog (USAGE 0); EvLog (USAGE 1);
   EvLog (USAGE 2); EvExit 1%Z].

Definition invalid_url_trace : list Event :=
  [EvError INVALID_URL; EvLog (COMMON_ISSUES 0); EvLog (COMMON_ISSUES 1);
   EvLog (COMMON_ISSUES 2); EvLog (COMMON_ISSUES 3); EvExit 1%Z].

(** An exception raised inside the pagination step: while waiting for the
    next control, while clicking it, or while waiting for the image link
    after the click. *)
Definition pagination_raises (env : Env) (w : World) : Prop :=
  (exists m, env_wait env (ncall w) = Rejected m) \/
  (env_wait env (ncall w) = Handle /\
   exists m, env_call env (S (ncall w)) = Some m) \/
  (env_wait env (ncall w) = Handle /\
   env_call env (S (ncall w)) = None /\
   exists m, env_wait env (S (S (ncall w))) = Rejected m).

(** ** The serial order of downloads *)




(** ** URL strings *)

(** The URL units of a path segment, among the ASCII characters: letters,
    digits and the marks the URL Standard lists as URL code points, except
    the slash and the question mark. *)
Definition is_path_segment_unit (c : ascii) : bool :=
  is_ASCII_alpha c || is_ASCII_digit c ||
  existsb (Ascii.eqb c)
    (list_ascii_of_string "!$&'()*+,-.:;=@_~").

(** What may follow the first letter of a scheme. *)
Definition is_scheme_unit (c : ascii) : bool :=
  is_ASCII_alpha c || is_ASCII_digit c ||
  Ascii.eqb c "+" || Ascii.eqb c "-" || Ascii.eqb c ".".

(** The URL-scheme strings of the URL Standard: a letter, then letters,
    digits, [+], [-] and [.]. *)
Definition URL_scheme_string (s : list ascii) : bool :=
  match s with
  | c :: rest => is_ASCII_alpha c && forallb is_scheme_unit rest
  | [] => false
  end.



(** The input up to its first character that satisfies [p], and the
    rest from that character on. *)
Fixpoint break_at (p : ascii -> bool) (l : list ascii)
    : list ascii * list ascii :=
  match l with
  | [] => ([], [])
  | c :: rest =>
      if p c then ([], l)
      else let (a, b) := break_at p rest in (c :: a, b)
  end.

(** The input split at its first colon. *)
Definition split_colon (l : list ascii) : option (list ascii * list ascii) :=
  match break_at (Ascii.eqb ":") l with
  | (s, _ :: r) => Some (s, r)
  | (_, []) => None
  end.


Definition is_ASCII_hex_digit (c : ascii) : bool :=
  is_ASCII_digit c ||
  existsb (Ascii.eqb c) (list_ascii_of_string "ABCDEFabcdef").

(** URL units: the URL code points and the percent sign, which must
    start a percent-encoded byte. *)
Definition is_URL_unit (c : ascii) : bool :=
  is_path_segment_unit c || Ascii.eqb c "/" || Ascii.eqb c "?" ||
  Ascii.eqb c "%".

Fixpoint percent_encoded (l : list ascii) : bool :=
  match l with
  | [] => true
  | c :: rest =>
      if Ascii.eqb c "%" then
        match rest with
        | h1 :: h2 :: rest' =>
            is_ASCII_hex_digit h1 && is_ASCII_hex_digit h2 &&
            percent_encoded rest'
        | _ => false
        end
      else percent_encoded rest
  end.

Definition URL_units (l : list ascii) : bool :=
  forallb is_URL_unit l && percent_encoded l.

(** What a URL string is written in: URL units and the number sign that
    opens a fragment. *)
Definition is_URL_char (c : ascii) : bool :=
  is_URL_unit c || Ascii.eqb c "#".

Fixpoint split_on (sep : ascii) (l : list ascii) : list (list ascii) :=
  match l with
  | [] => [[]]
  | c :: rest =>
      if Ascii.eqb c sep then [] :: split_on sep rest
      else match split_on sep rest with
           | h :: t => (c :: h) :: t
           | [] => [[c]]
           end
  end.

Fixpoint double_hyphen (l : list ascii) : bool :=
  match l with
  | c :: (c' :: _) as rest =>
      (Ascii.eqb c "-" && Ascii.eqb c' "-") || double_hyphen rest
  | _ => false
  end.

(** A label of a domain: letters, digits and hyphens, at most 63 of them,
    no hyphen first or last; double hyphens, which the labels of
    internationalised names carry, are left out. *)
Definition valid_label (label : list ascii) : bool :=
  match label with
  | [] => false
  | c :: _ =>
      forallb (fun x => is_ASCII_alpha x || is_ASCII_digit x ||
                        Ascii.eqb x "-") label &&
      negb (Ascii.eqb c "-") &&
      negb (Ascii.eqb (last label c) "-") &&
      negb (double_hyphen label) &&
      Nat.leb (List.length label) 63
  end.

(** A domain: labels separated by dots, at most 253 characters; the last
    label starts with a letter, so the domain does not end in a number. *)
Definition valid_domain_string (host : list ascii) : bool :=
  let labels := split_on "." host in
  forallb valid_label labels &&
  match last labels [] with
  | c :: _ => is_ASCII_alpha c
  | [] => false
  end &&
  Nat.leb (List.length host) 253.

(** A port, with the colon before it: digits that read as a number no
    greater than 65535. *)
Definition valid_port (port : list ascii) : bool :=
  match port with
  | [] => true
  | _ :: ds =>
      forallb is_ASCII_digit ds &&
      N.leb (fold_left (fun n c => (10 * n + (N_of_ascii c - 48))%N) ds 0%N)
            65535
  end.

(** The path, query and fragment, each with the character that opens
    it. *)
Definition valid_path (path : list ascii) : bool :=
  match path with
  | [] => true
  | c :: rest =>
      Ascii.eqb c "/" &&
      match rest with
      | c' :: _ => negb (Ascii.eqb c' "/")
      | [] => true
      end &&
      URL_units rest
  end.

Definition valid_query (query : list ascii) : bool :=
  match query with
  | [] => true
  | _ :: rest => URL_units rest
  end.

Definition valid_fragment (fragment : list ascii) : bool :=
  match fragment with
  | [] => true
  | _ :: rest => URL_units rest
  end.

(** What may follow the colon of a special scheme: a
    scheme-relative-special-URL string, with a query and a fragment. *)
Definition valid_special_remainder (remaining : list ascii) : bool :=
  match remaining with
  | c1 :: c2 :: r =>
      Ascii.eqb c1 "/" && Ascii.eqb c2 "/" &&
      (let (authority, after) :=
         break_at (fun c => Ascii.eqb c "/" || Ascii.eqb c "?" ||
                            Ascii.eqb c "#") r in
       let (host, port) := break_at (Ascii.eqb ":") authority in
       let (path, after_path) :=
         break_at (fun c => Ascii.eqb c "?" || Ascii.eqb c "#") after in
       let (query, fragment) := break_at (Ascii.eqb "#") after_path in
       valid_domain_string host && valid_port port && valid_path path &&
       valid_query query && valid_fragment fragment)
  | _ => false
  end.

(** The special schemes other than [file]. *)
Definition special_scheme (scheme : string) : bool :=
  existsb (String.eqb scheme) ["ftp"; "http"; "https"; "ws"; "wss"].

(** The remainders of the URLs the script is meant for: after a special
    scheme other than [file], two slashes, a domain, an optional port, an
    optional path-absolute-URL string, an optional query and an optional
    fragment. *)
Definition special_URL_remainder (scheme : string) (remaining : list ascii)
    : bool :=
  special_scheme scheme && valid_special_remainder remaining.

(** The absolute-URL strings of the URL Standard, written in ASCII: a
    URL-scheme string, a colon, and what the Standard lets follow that
    scheme, [valid_remainder] telling what that is. *)
Definition absolute_URL_string
    (valid_remainder : string -> list ascii -> bool) (s : string) : bool :=
  forallb is_URL_char (list_ascii_of_string s) &&
  match split_colon (list_ascii_of_string s) with
  | Some (scheme, remaining) =>
      URL_scheme_string scheme &&
      valid_remainder (string_of_list_ascii (map ASCII_lowercase scheme))
        remaining
  | None => false
  end.


(** ** Further vocabulary *)

Definition is_now (e : Event) : bool :=
  match e with EvNow => true | _ => false end.

Definition is_readdir (e : Event) : bool :=
  match e with EvReaddir _ => true | _ => false end.

Definition is_sleep (e : Event) : bool :=
  match e with EvSleep _ => true | _ => false end.

Definition is_close (e : Event) : bool :=
  match e with EvClose => true | _ => false end.

Definition is_goto (e : Event) : bool :=
  match e with EvGoto _ => true | _ => false end.

(** The clock seen from a call of the watcher advances by at least the
    poll interval from one pass of the loop to the next, as the sleep
    between two passes makes it. *)
Definition ticking (env : Env) (w : World) : Prop :=
  (0 <= elapsed env w 0)%Z /\
  forall i, (elapsed env w i + TIMEOUTS.POLL_INTERVAL <= elapsed env w (S i))%Z.

(** What can occur in the trace of the traversal loop. *)
Definition is_loop_event (e : Event) : bool :=
  match e with
  | EvNow | EvReaddir _ | EvSleep _ | EvPageClick IMAGE_LINK
  | EvWaitForSelector _ _ | EvHandleClick => true
  | EvLog (DOWNLOAD_START _) | EvLog (DOWNLOAD_SUCCESS _)
  | EvLog (CURRENT_URL _) | EvLog (NAVIGATION_PROGRESS _)
  | EvLog END_OF_ALBUM => true
  | _ => false
  end.

(** The numbers the download-start messages of a trace carry, in order,
    and those of the navigation-progress messages. *)
Definition start_numbers (t : list Event) : list nat :=
  flat_map (fun e => match e with
                     | EvLog (DOWNLOAD_START n) => [n]
                     | _ => []
                     end) t.

Definition progress_numbers (t : list Event) : list nat :=
  flat_map (fun e => match e with
                     | EvLog (NAVIGATION_PROGRESS n) => [n]
                     | _ => []
                     end) t.

(** No finished file leaves the download directory between the listings
    numbered from [lo] up to [hi], the last not counted: an entry without
    the partial-download marker that one of them shows, the next shows
    too.  Partial files may come and go. *)
Definition persistent (env : Env) (lo hi : nat) : Prop :=
  forall i f,
    lo <= i -> S i < hi -> In f (env_readdir env i) ->
    endsWith (name f) partial_marker = false ->
    In f (env_readdir env (S i)).

(** The event concerns no directory but [d]. *)
Definition concerns (d : string) (e : Event) : Prop :=
  match e with
  | EvMkdir p | EvReaddir p | EvSend p => p = d
  | _ => True
  end.

(** * Concrete worlds and runs *)

(** A tail of the URL parser that accepts whatever follows a scheme. *)
Definition lenient_tail : string -> list ascii -> bool := fun _ _ => true.


(** No browser, an empty download directory, nothing called yet. *)
Definition fresh : World := MkWorld [] false 0 0 0.

(** A gallery of three photos: the next control works on the first two
    photos and is missing on the third; every clock reading is a second
    after the one before. *)
Definition gallery3 : Env :=
  MkEnv (fun i => (1000 * Z.of_nat i)%Z)
        (fun i =>
           nth i
             [ []; [];
               [file "a.jpg.crdownload"; file "a.jpg"];
               [file "a.jpg"];
               [file "a.jpg"; file "b.jpg"];
               [file "a.jpg"; file "b.jpg"];
               [file "b.jpg"; file "c.jpg.crdownload"; file "a.jpg"];
               [file "c.jpg"; file "b.jpg"; file "a.jpg"] ] [])
        (fun _ => None)
        (fun i => if Nat.eqb i 14 then Rejected "TimeoutError" else Handle)
        (fun _ => "https://school.example/gallery-1").

(** A gallery whose first download never completes; the clock readings
    are twenty seconds apart. *)
Definition stalled : Env :=
  MkEnv (fun i => (20000 * Z.of_nat i)%Z)
        (fun i => if Nat.eqb i 0 then [] else [file "a.jpg.crdownload"])
        (fun _ => None)
        (fun _ => Handle)
        (fun _ => "https://school.example/gallery-1").

(** A gallery whose second download never completes. *)
Definition stalled_second : Env :=
  MkEnv (fun i => (20000 * Z.of_nat i)%Z)
        (fun i =>
           nth i [ []; []; [file "a.jpg"]; [file "a.jpg"] ]
               [file "a.jpg"; file "b.jpg.crdownload"])
        (fun _ => None)
        (fun _ => Handle)
        (fun _ => "https://school.example/gallery-1").

(** The run of [stalled_second] from [fresh]: the world at the start of
    the second iteration, the trace of the first iteration, and how the
    watcher leaves the second download. *)
Definition photos : string := "/home/user/app/photos".

Definition first_downloaded : World := MkWorld [file "a.jpg"] true 2 3 6.

Definition second_iteration : World := MkWorld [file "a.jpg"] true 2 3 9.

Definition first_iteration_trace : list Event :=
  iteration_start 0 ++
  [EvNow; EvReaddir photos; EvNow; EvReaddir photos] ++
  [EvLog (DOWNLOAD_SUCCESS (name (file "a.jpg")))] ++
  [EvLog (CURRENT_URL "https://school.example/gallery-1");
   EvWaitForSelector NEXT_BUTTON TIMEOUTS.ELEMENT_VISIBLE;
   EvLog (NAVIGATION_PROGRESS 1); EvHandleClick;
   EvWaitForSelector IMAGE_LINK TIMEOUTS.ELEMENT_VISIBLE;
   EvSleep TIMEOUTS.ANIMATION] ++ [].

Definition timed_out : World :=
  MkWorld [file "a.jpg"; file "b.jpg.crdownload"] true 5 5 10.

Definition timed_out_trace : list Event :=
  [EvNow; EvReaddir photos; EvNow; EvReaddir photos;
   EvSleep TIMEOUTS.POLL_INTERVAL; EvNow].

(** A gallery whose image link cannot be clicked. *)
Definition unclickable : Env :=
  MkEnv (fun i => (1000 * Z.of_nat i)%Z)
        (fun _ => [])
        (fun i => if Nat.eqb i 5 then Some "no node for selector" else None)
        (fun _ => Handle)
        (fun _ => "https://school.example/gallery-1").

Definition argv3 : list string :=
  ["node"; "index.js"; "https://school.example/gallery-1"].

(** A download seen from the watcher: an old file is there before, the
    partial file shows first, the finished file a poll later. *)
Definition downloading : Env :=
  MkEnv (fun i => (1000 * Z.of_nat i)%Z)
        (fun i =>
           nth i
             [ [file "old.jpg"];
               [file "old.jpg"; file "new.jpg.crdownload"];
               [file "new.jpg.crdownload"; file "old.jpg"; file "new.jpg";
                file "other.png"] ] [])
        (fun _ => None)
        (fun _ => Handle)
        (fun _ => "https://school.example/gallery-1").

(** A world in which a browser session is open. *)
Definition watching : World := MkWorld [] true 0 0 6.

Definition run3 : Outcome unit * World * list Event :=
  script gallery3 lenient_tail argv3 "/home/user/app" 10 fresh.

Definition leftover : World := MkWorld [file "old.jpg"] false 0 0 0.

Definition loop3 : Outcome nat * World * list Event :=
  gallery_loop gallery3 10 "photos" 0 (MkWorld [] true 0 1 5).

(** A gallery of one photo; nothing leaves the directory. *)
Definition single : Env :=
  MkEnv (fun i => (1000 * Z.of_nat i)%Z)
        (fun i => if Nat.ltb i 2 then [] else [file "a.jpg"])
        (fun _ => None)
        (fun _ => Rejected "TimeoutError")
        (fun _ => "https://school.example/gallery-1").

Definition run_single : Outcome unit * World * list Event :=
  script single lenient_tail argv3 "/home/user/app" 5 fresh.

(** A browser that launches and then fails to open a page. *)
Definition no_page : Env :=
  MkEnv (fun i => (1000 * Z.of_nat i)%Z)
        (fun _ => [])
        (fun i => if Nat.eqb i 1 then Some "Target closed" else None)
        (fun _ => Handle)
        (fun _ => "about:blank").

Definition run_no_page : Outcome unit * World * list Event :=
  main_catch no_page 5 "/home/user/app" "https://school.example/gallery-1"
    fresh.

Definition watch_downloading : Outcome Filename * World * list Event :=
  waitForDownloadCompletion downloading 5 photos watching.

Definition run3_main : Outcome unit * World * list Event :=
  main_catch gallery3 10 "/home/user/app" "https://school.example/gallery-1"
    fresh.

(** A download that is already complete when the watcher takes its
    "before" snapshot: every listing shows the same finished file. *)
Definition already_there : Env :=
  MkEnv (fun i => (20000 * Z.of_nat i)%Z)
        (fun _ => [file "a.jpg"])
        (fun _ => None)
        (fun _ => Handle)
        (fun _ => "https://school.example/gallery-1").


(** * Properties *)


(** ** Snapshot diffing *)

Lemma find_filter_some {A} (p1 p2 : A -> bool) (l : list A) (x : A) :
  find p2 (filter p1 l) = Some x <->
  exists l1 l2, l = l1 ++ x :: l2 /\ p1 x && p2 x = true /\
                forall y, In y l1 -> p1 y && p2 y = false.
Proof.
  induction l as [|a l IH]; simpl.
  - split; [discriminate|].
    intros (l1 & l2 & E & _). destruct l1; discriminate.
  - destruct (p1 a) eqn:E1; simpl; [destruct (p2 a) eqn:E2|].
    + split.
      * intros H. injection H as H. subst x. exists [], l.
        rewrite E1, E2. repeat split. intros y [].
      * intros (l1 & l2 & E & Hx & Hl). destruct l1 as [|b l1].
        -- injection E as Ea _. now subst x.
        -- injection E as Ea _. subst b.
           specialize (Hl a (or_introl eq_refl)).
           rewrite E1, E2 in Hl. discriminate.
    + rewrite IH. split.
      * intros (l1 & l2 & -> & Hx & Hl). exists (a :: l1), l2.
        repeat split; auto. intros y [<-|Hy]; auto. now rewrite E1, E2.
      * intros (l1 & l2 & E & Hx & Hl). destruct l1 as [|b l1].
        -- injection E as Ea _. subst x. rewrite E1, E2 in Hx. discriminate.
        -- injection E as Ea El. subst b l. exists l1, l2. repeat split; auto.
           intros y Hy. apply Hl. now right.
    + rewrite IH. split.
      * intros (l1 & l2 & -> & Hx & Hl). exists (a :: l1), l2.
        repeat split; auto. intros y [<-|Hy]; auto. now rewrite E1.
      * intros (l1 & l2 & E & Hx & Hl). destruct l1 as [|b l1].
        -- injection E as Ea _. subst x. rewrite E1 in Hx. discriminate.
        -- injection E as Ea El. subst b l. exists l1, l2. repeat split; auto.
           intros y Hy. apply Hl. now right.
Qed.

Lemma find_filter_none {A} (p1 p2 : A -> bool) (l : list A) :
  find p2 (filter p1 l) = None <->
  forall y, In y l -> p1 y && p2 y = false.
Proof.
  induction l as [|a l IH]; simpl.
  - split; [intros _ y []|reflexivity].
  - destruct (p1 a) eqn:E1; simpl; [destruct (p2 a) eqn:E2|].
    + split; [discriminate|]. intros H.
      specialize (H a (or_introl eq_refl)). now rewrite E1, E2 in H.
    + rewrite IH. split.
      * intros H y [<-|Hy]; auto. now rewrite E1, E2.
      * intros H y Hy. apply H. now right.
    + rewrite IH. split.
      * intros H y [<-|Hy]; auto. now rewrite E1.
      * intros H y Hy. apply H. now right.
Qed.

Lemma completed_some before after f :
  completed before after = Some f <-> first_qualifying before after f.
Proof.
  unfold completed, first_qualifying, qualifies.
  apply (find_filter_some (fun f => negb (includes before f))
           (fun f => negb (endsWith (name f) partial_marker))).
Qed.

Lemma completed_none before after :
  completed before after = None <-> none_qualifying before after.
Proof.
  unfold completed, none_qualifying, qualifies.
  apply (find_filter_none (fun f => negb (includes before f))
           (fun f => negb (endsWith (name f) partial_marker))).
Qed.

Lemma truthy_filename (f : Filename) : truthy (Some f) = true.
Proof. reflexivity. Qed.

(** ** The download watcher *)

Section Watcher.

Variable env : Env.

Lemma listing_observed w : listing env w = observed env w 0.
Proof. unfold listing, observed. now rewrite Nat.add_0_r. Qed.

Lemma observed_polled w k : observed env (polled env w) k = observed env w (S k).
Proof.
  unfold observed, polled, listing; simpl.
  destruct (session w); [|reflexivity].
  f_equal. lia.
Qed.

(** One iteration of the polling loop. *)
Lemma poll_step fuel d start before w :
  poll env (S fuel) d start before w =
  if (env_now env (nclock w) - start <? TIMEOUTS.DOWNLOAD)%Z then
    match completed before (listing env w) with
    | Some f => (Ret f, polled env w, [EvNow; EvReaddir d])
    | None =>
        match poll env fuel d start before (polled env w) with
        | (o, w', t) =>
            (o, w', [EvNow; EvReaddir d; EvSleep TIMEOUTS.POLL_INTERVAL] ++ t)
        end
    end
  else (Throw download_timed_out, ticked w, [EvNow]).
Proof.
  unfold completed, polled, ticked. cbn [poll].
  unfold bind, Date_now, fs_readdir, listing, sleep, emit, ret, throw.
  cbn [nclock dir session nreaddir ncall].
  destruct (env_now env (nclock w) - start <? TIMEOUTS.DOWNLOAD)%Z;
    [|reflexivity].
  cbn [nclock dir session nreaddir ncall].
  destruct (find _ _) as [f|] eqn:E.
  - reflexivity.
  - destruct (poll env fuel d start before _) as [[o w'] t].
    reflexivity.
Qed.

(** The loop returns [f] exactly when some poll made before the deadline
    is the first to show a qualifying entry, and [f] is the first such
    entry of that poll. *)
Lemma poll_ret fuel d start before f : forall w,
  outcome (poll env fuel d start before w) = Ret f <->
  exists i, i < fuel /\
    (forall j, j <= i ->
       (env_now env (nclock w + j) - start < TIMEOUTS.DOWNLOAD)%Z) /\
    (forall j, j < i -> none_qualifying before (observed env w j)) /\
    first_qualifying before (observed env w i) f.
Proof.
  induction fuel as [|fuel IH]; intros w.
  - simpl. split; [discriminate|]. intros (i & Hi & _). lia.
  - rewrite poll_step.
    destruct (env_now env (nclock w) - start <? TIMEOUTS.DOWNLOAD)%Z eqn:Et.
    + apply Z.ltb_lt in Et.
      destruct (completed before (listing env w)) as [f0|] eqn:Ec.
      * apply completed_some in Ec. rewrite listing_observed in Ec.
        unfold outcome; simpl. split.
        -- intros H. injection H as H. subst f0. exists 0.
           repeat split; auto; try lia.
           intros j Hj. replace j with 0 by lia. now rewrite Nat.add_0_r.
        -- intros (i & Hi & Ht & Hn & Hf). destruct i as [|i].
           ++ apply completed_some in Ec, Hf. congruence.
           ++ destruct Ec as (l1 & l2 & E & Hq & _).
              specialize (Hn 0 (Nat.lt_0_succ i) f0).
              rewrite E in Hn. rewrite Hn in Hq; [discriminate|].
              apply in_or_app. right. now left.
      * apply completed_none in Ec. rewrite listing_observed in Ec.
        specialize (IH (polled env w)).
        destruct (poll env fuel d start before (polled env w)) as [[o w'] t].
        unfold outcome in *; simpl in *. rewrite IH. clear IH. split.
        -- intros (i & Hi & Ht & Hn & Hf). exists (S i). repeat split.
           ++ lia.
           ++ intros [|j] Hj; [now rewrite Nat.add_0_r|].
              specialize (Ht j). replace (nclock w + S j) with (S (nclock w + j)) by lia.
              apply Ht. lia.
           ++ intros [|j] Hj; [exact Ec|].
              rewrite <- observed_polled. apply Hn. lia.
           ++ now rewrite <- observed_polled.
        -- intros (i & Hi & Ht & Hn & Hf). destruct i as [|i].
           ++ destruct Hf as (l1 & l2 & E & Hq & _).
              rewrite (Ec f) in Hq; [discriminate|].
              rewrite E. apply in_or_app. right. now left.
           ++ exists i. repeat split.
              ** lia.
              ** intros j Hj. specialize (Ht (S j)).
                 replace (nclock w + S j) with (S (nclock w + j)) in Ht by lia.
                 apply Ht. lia.
              ** intros j Hj. rewrite observed_polled. apply Hn. lia.
              ** now rewrite observed_polled.
    + apply Z.ltb_ge in Et. unfold outcome; simpl.
      split; [discriminate|].
      intros (i & _ & Ht & _). specialize (Ht 0 (Nat.le_0_l i)).
      rewrite Nat.add_0_r in Ht. lia.
Qed.

(** The loop throws only the time-out error, and only at a clock reading
    at or past the deadline before which no poll showed a qualifying
    entry; the last clock reading is then that one. *)
Lemma poll_throw fuel d start before e : forall w w' t,
  poll env fuel d start before w = (Throw e, w', t) ->
  e = download_timed_out /\
  exists T, T < fuel /\ nclock w' = S (nclock w + T) /\
    (TIMEOUTS.DOWNLOAD <= env_now env (nclock w + T) - start)%Z /\
    forall j, j < T ->
      (env_now env (nclock w + j) - start < TIMEOUTS.DOWNLOAD)%Z /\
      none_qualifying before (observed env w j).
Proof.
  induction fuel as [|fuel IH]; intros w w' t.
  - simpl. discriminate.
  - rewrite poll_step.
    destruct (env_now env (nclock w) - start <? TIMEOUTS.DOWNLOAD)%Z eqn:Et.
    + apply Z.ltb_lt in Et.
      destruct (completed before (listing env w)) as [f0|] eqn:Ec;
        [discriminate|].
      apply completed_none in Ec. rewrite listing_observed in Ec.
      specialize (IH (polled env w)).
      destruct (poll env fuel d start before (polled env w)) as [[o w1] t1].
      intros H. injection H as Ho Hw _. subst o w1.
      destruct (IH w' t1 eq_refl) as (He & T & HT & Hc & Hd & Hj).
      split; [exact He|]. exists (S T). simpl in Hc, Hd. repeat split.
      * lia.
      * rewrite Hc. lia.
      * replace (nclock w + S T) with (S (nclock w + T)) by lia. exact Hd.
      * destruct j as [|j]; [now rewrite Nat.add_0_r|].
        replace (nclock w + S j) with (S (nclock w + j)) by lia.
        apply (Hj j). lia.
      * destruct j as [|j]; [exact Ec|].
        rewrite <- observed_polled. apply (Hj j). lia.
    + apply Z.ltb_ge in Et. intros H. injection H as He Hw _.
      split; [now symmetry|]. exists 0. subst w'. simpl.
      rewrite !Nat.add_0_r. repeat split; auto; try lia.
Qed.

Lemma poll_timeout fuel d start before : forall w T,
  T < fuel ->
  (TIMEOUTS.DOWNLOAD <= env_now env (nclock w + T) - start)%Z ->
  (forall j, j < T ->
     (env_now env (nclock w + j) - start < TIMEOUTS.DOWNLOAD)%Z /\
     none_qualifying before (observed env w j)) ->
  outcome (poll env fuel d start before w) = Throw download_timed_out.
Proof.
  induction fuel as [|fuel IH]; intros w T HT Hd Hj; [lia|].
  rewrite poll_step. destruct T as [|T].
  - rewrite Nat.add_0_r in Hd.
    destruct (Z.ltb_spec (env_now env (nclock w) - start) TIMEOUTS.DOWNLOAD);
      [lia|reflexivity].
  - destruct (Hj 0 (Nat.lt_0_succ T)) as (Ht & Hn).
    rewrite Nat.add_0_r in Ht. apply Z.ltb_lt in Ht. rewrite Ht.
    rewrite <- listing_observed in Hn. apply completed_none in Hn.
    rewrite Hn.
    specialize (IH (polled env w) T).
    destruct (poll env fuel d start before (polled env w)) as [[o w1] t1].
    unfold outcome in *; simpl in *. apply IH.
    + lia.
    + replace (S (nclock w + T)) with (nclock w + S T) by lia. exact Hd.
    + intros j Hlt. destruct (Hj (S j)) as (H1 & H2); [lia|].
      rewrite observed_polled. split; [|exact H2].
      replace (S (nclock w + j)) with (nclock w + S j) by lia. exact H1.
Qed.

Lemma poll_never_exits fuel d start before c : forall w,
  outcome (poll env fuel d start before w) <> Exit c.
Proof.
  induction fuel as [|fuel IH]; intros w; [discriminate|].
  rewrite poll_step.
  destruct (_ <? _)%Z; [|discriminate].
  destruct (completed _ _); [discriminate|].
  specialize (IH (polled env w)).
  destruct (poll env fuel d start before (polled env w)) as [[o w1] t1].
  exact IH.
Qed.

End Watcher.

Section WatcherContract.

Variable env : Env.

Lemma waitForDownloadCompletion_unfold fuel d w :
  waitForDownloadCompletion env fuel d w =
  match poll env fuel d (start_time env w) (before_snapshot env w) (polled env w) with
  | (o, w', t) => (o, w', [EvNow; EvReaddir d] ++ t)
  end.
Proof.
  unfold waitForDownloadCompletion, before_snapshot, start_time.
  rewrite <- listing_observed.
  unfold bind, Date_now, fs_readdir, polled, listing.
  cbn [nclock dir session nreaddir ncall].
  destruct (poll env fuel d _ _ _) as [[o w'] t]. reflexivity.
Qed.

Lemma includes_false_not_In l f : includes l f = false -> ~ In f l.
Proof.
  unfold includes. intros H Hin.
  assert (existsb (fun g => String.eqb (name g) (name f)) l = true) as E.
  { apply existsb_exists. exists f. split; [exact Hin|apply String.eqb_refl]. }
  congruence.
Qed.

Lemma first_qualifying_new before after f :
  first_qualifying before after f ->
  ~ In f before /\ endsWith (name f) partial_marker = false /\ In f after.
Proof.
  intros (l1 & l2 & E & Hq & _). unfold qualifies in Hq.
  apply andb_true_iff in Hq. destruct Hq as (H1 & H2).
  apply negb_true_iff in H1, H2. repeat split.
  - now apply includes_false_not_In.
  - exact H2.
  - rewrite E. apply in_or_app. right. now left.
Qed.

End WatcherContract.

(** C1.  [waitForDownloadCompletion] returns [f] exactly when, at some
    pass of its loop reached before the download timeout, [f] is the first
    entry of the directory that is absent from the "before" snapshot and
    does not end with the partial-download marker, no earlier pass having
    shown such an entry; a returned name is never one of the "before"
    snapshot and never carries the marker. *)
Theorem waitForDownloadCompletion_returns_first_new_file
    (env : Env) (fuel : nat) (directory : string) (w : World) (f : Filename) :
  (outcome (waitForDownloadCompletion env fuel directory w) = Ret f <->
   exists i, i < fuel /\
     (forall j, j <= i -> (elapsed env w j < TIMEOUTS.DOWNLOAD)%Z) /\
     (forall j, j < i ->
        none_qualifying (before_snapshot env w) (poll_snapshot env w j)) /\
     first_qualifying (before_snapshot env w) (poll_snapshot env w i) f) /\
  (outcome (waitForDownloadCompletion env fuel directory w) = Ret f ->
   ~ In f (before_snapshot env w) /\
   endsWith (name f) partial_marker = false).
Proof.
  assert (outcome (waitForDownloadCompletion env fuel directory w) = Ret f <->
   exists i, i < fuel /\
     (forall j, j <= i -> (elapsed env w j < TIMEOUTS.DOWNLOAD)%Z) /\
     (forall j, j < i ->
        none_qualifying (before_snapshot env w) (poll_snapshot env w j)) /\
     first_qualifying (before_snapshot env w) (poll_snapshot env w i) f) as H.
  { rewrite waitForDownloadCompletion_unfold.
    pose proof (poll_ret env fuel directory (start_time env w)
                  (before_snapshot env w) f (polled env w)) as P.
    destruct (poll env fuel directory _ _ _) as [[o w'] t].
    unfold outcome in *; simpl in *. rewrite P. clear P.
    unfold elapsed, poll_snapshot.
    split; intros (i & Hi & Ht & Hn & Hf); exists i; repeat split; auto.
    - intros j Hj. replace (nclock w + S j) with (S (nclock w + j)) by lia.
      now apply Ht.
    - intros j Hj. rewrite <- observed_polled. now apply Hn.
    - now rewrite <- observed_polled.
    - intros j Hj. specialize (Ht j Hj).
      now replace (nclock w + S j) with (S (nclock w + j)) in Ht by lia.
    - intros j Hj. rewrite observed_polled. now apply Hn.
    - now rewrite observed_polled. }
  split; [exact H|].
  intros R. apply H in R. destruct R as (i & _ & _ & _ & Hf).
  apply first_qualifying_new in Hf. tauto.
Qed.

(** C3.  [waitForDownloadCompletion] throws nothing but the time-out
    error, and throws it exactly when some clock reading of its loop is at
    or past the download timeout while every pass before that reading was
    within the timeout and showed no qualifying new entry; when it throws,
    the last clock reading it made is at least the timeout after the
    start. *)
Theorem waitForDownloadCompletion_timeout
    (env : Env) (fuel : nat) (directory : string) (w : World) :
  (forall e, outcome (waitForDownloadCompletion env fuel directory w) = Throw e ->
             e = download_timed_out) /\
  (outcome (waitForDownloadCompletion env fuel directory w)
     = Throw download_timed_out <->
   exists T, T < fuel /\
     (TIMEOUTS.DOWNLOAD <= elapsed env w T)%Z /\
     forall j, j < T ->
       (elapsed env w j < TIMEOUTS.DOWNLOAD)%Z /\
       none_qualifying (before_snapshot env w) (poll_snapshot env w j)) /\
  (forall e w' t,
     waitForDownloadCompletion env fuel directory w = (Throw e, w', t) ->
     (TIMEOUTS.DOWNLOAD <= env_now env (nclock w' - 1) - start_time env w)%Z).
Proof.
  rewrite waitForDownloadCompletion_unfold.
  pose proof (poll_throw env fuel directory (start_time env w)
                (before_snapshot env w)) as P.
  pose proof (poll_timeout env fuel directory (start_time env w)
                (before_snapshot env w) (polled env w)) as Q.
  destruct (poll env fuel directory _ _ _) as [[o w1] t1] eqn:E.
  unfold outcome in *; simpl in *.
  split; [|split].
  - intros e ->. now destruct (P e (polled env w) w1 t1 E).
  - split.
    + intros ->.
      destruct (P _ (polled env w) w1 t1 E) as (_ & T & HT & _ & Hd & Hj).
      exists T. unfold elapsed, poll_snapshot. simpl in Hd, Hj.
      repeat split.
      * exact HT.
      * now replace (nclock w + S T) with (S (nclock w + T)) by lia.
      * replace (nclock w + S j) with (S (nclock w + j)) by lia.
        now apply Hj.
      * rewrite <- observed_polled. now apply Hj.
    + intros (T & HT & Hd & Hj). apply (Q T HT); unfold elapsed in *; simpl.
      * now replace (nclock w + S T) with (S (nclock w + T)) in Hd by lia.
      * intros j Hlt. destruct (Hj j Hlt) as (H1 & H2). split.
        -- now replace (nclock w + S j) with (S (nclock w + j)) in H1 by lia.
        -- rewrite observed_polled. exact H2.
  - intros e w' t H. injection H as -> -> _.
    destruct (P e (polled env w) w' t1 E) as (_ & T & _ & Hc & Hd & _).
    rewrite Hc. simpl in *.
    now replace (S (S (nclock w + T)) - 1) with (S (nclock w + T)) by lia.
Qed.

(** ** The pagination step *)

Section Pagination.

Variable env : Env.

(** [handleNextButton] case by case on what the browser answers. *)
Lemma handleNextButton_cases photoCount w :
  handleNextButton env photoCount w =
  let url := EvLog (CURRENT_URL (env_url env (ncall w))) in
  let waitNext := EvWaitForSelector NEXT_BUTTON TIMEOUTS.ELEMENT_VISIBLE in
  let waitImage := EvWaitForSelector IMAGE_LINK TIMEOUTS.ELEMENT_VISIBLE in
  let progress := EvLog (NAVIGATION_PROGRESS photoCount) in
  match env_wait env (ncall w) with
  | Rejected _ => (Ret false, called w, [url; waitNext; EvLog END_OF_ALBUM])
  | Null => (Ret false, called w, [url; waitNext])
  | Handle =>
      match env_call env (S (ncall w)) with
      | Some _ =>
          (Ret false, called (called w),
           [url; waitNext; progress; EvHandleClick; EvLog END_OF_ALBUM])
      | None =>
          match env_wait env (S (S (ncall w))) with
          | Rejected _ =>
              (Ret false, called3 w,
               [url; waitNext; progress; EvHandleClick; waitImage;
                EvLog END_OF_ALBUM])
          | _ =>
              (Ret true, called3 w,
               [url; waitNext; progress; EvHandleClick; waitImage;
                EvSleep TIMEOUTS.ANIMATION])
          end
      end
  end.
Proof.
  unfold handleNextButton, try_catch, bind, page_url, console_log, emit,
    page_waitForSelector, handle_click, browser_call, sleep, ret, called3.
  cbn [ncall called].
  destruct (env_wait env (ncall w)); cbn; try reflexivity.
  destruct (env_call env (S (ncall w))); cbn; try reflexivity.
  destruct (env_wait env (S (S (ncall w)))); reflexivity.
Qed.

End Pagination.

Lemma handleNextButton_total env photoCount w :
  exists hasNext w' t,
    handleNextButton env photoCount w = (Ret hasNext, w', t) /\
    pagination_trace photoCount hasNext t /\
    session w' = session w.
Proof.
  rewrite handleNextButton_cases. cbv zeta.
  destruct (env_wait env (ncall w)).
  - destruct (env_call env (S (ncall w))).
    + do 3 eexists. repeat split. constructor.
    + destruct (env_wait env (S (S (ncall w))));
        do 3 eexists; repeat split; constructor.
  - do 3 eexists. repeat split. constructor.
  - do 3 eexists. repeat split. constructor.
Qed.

(** ** The traversal loop *)

Lemma poll_trace env fuel d start before : forall w o w' t,
  poll env fuel d start before w = (o, w', t) ->
  watcher_trace t /\ session w' = session w /\ ncall w' = ncall w /\
  (forall e, o = Throw e ->
     e = download_timed_out /\ exists pre, t = pre ++ [EvNow]) /\
  (forall c, o <> Exit c).
Proof.
  induction fuel as [|fuel IH]; intros w o w' t.
  - simpl. intros [= <- <- <-].
    repeat split; try discriminate. constructor.
  - rewrite poll_step. destruct (_ <? _)%Z.
    + destruct (completed _ _).
      * intros [= <- <- <-]. repeat split; try discriminate.
        repeat constructor.
      * destruct (poll env fuel d start before (polled env w))
          as [[o1 w1] t1] eqn:E.
        intros [= <- <- <-].
        destruct (IH _ _ _ _ E) as (Ht & Hs & Hc & He & Hx).
        repeat split; auto.
        -- repeat constructor. exact Ht.
        -- now apply He.
        -- destruct (He e H) as (_ & pre & ->).
           now exists ([EvNow; EvReaddir d; EvSleep TIMEOUTS.POLL_INTERVAL] ++ pre).
    + intros [= <- <- <-]. repeat split; try discriminate.
      * repeat constructor.
      * congruence.
      * now exists [].
Qed.

Lemma waitForDownloadCompletion_trace env fuel d w o w' t :
  waitForDownloadCompletion env fuel d w = (o, w', t) ->
  watcher_trace t /\ session w' = session w /\ ncall w' = ncall w /\
  (forall e, o = Throw e ->
     e = download_timed_out /\ exists pre, t = pre ++ [EvNow]) /\
  (forall c, o <> Exit c).
Proof.
  rewrite waitForDownloadCompletion_unfold.
  destruct (poll env fuel d _ _ _) as [[o1 w1] t1] eqn:E.
  intros [= <- <- <-].
  destruct (poll_trace _ _ _ _ _ _ _ _ _ E) as (Ht & Hs & Hc & He & Hx).
  repeat split; auto.
  - repeat constructor. exact Ht.
  - now apply He.
  - destruct (He e H) as (_ & pre & ->).
    now exists ([EvNow; EvReaddir d] ++ pre).
Qed.

Section Loop.

Variable env : Env.

(** One iteration of the [while (true)] loop of [main]. *)
Lemma gallery_loop_step fuel d photoCount w :
  gallery_loop env (S fuel) d photoCount w =
  let start :=
    [EvLog (DOWNLOAD_START photoCount); EvPageClick IMAGE_LINK] in
  match env_call env (ncall w) with
  | Some e => (Throw (BrowserError e), called w, start)
  | None =>
      match waitForDownloadCompletion env (S fuel) d (called w) with
      | (Ret filename, w1, t1) =>
          match handleNextButton env (photoCount + 1) w1 with
          | (Ret hasNext, w2, t2) =>
              let done :=
                start ++ t1 ++ [EvLog (DOWNLOAD_SUCCESS (name filename))] ++ t2 in
              if hasNext then
                match gallery_loop env fuel d (photoCount + 1) w2 with
                | (o, w3, t3) => (o, w3, done ++ t3)
                end
              else (Ret photoCount, w2, done)
          | (Throw e, w2, t2) =>
              (Throw e, w2,
               start ++ t1 ++ [EvLog (DOWNLOAD_SUCCESS (name filename))] ++ t2)
          | (Exit c, w2, t2) =>
              (Exit c, w2,
               start ++ t1 ++ [EvLog (DOWNLOAD_SUCCESS (name filename))] ++ t2)
          | (OutOfFuel, w2, t2) =>
              (OutOfFuel, w2,
               start ++ t1 ++ [EvLog (DOWNLOAD_SUCCESS (name filename))] ++ t2)
          end
      | (Throw e, w1, t1) => (Throw e, w1, start ++ t1)
      | (Exit c, w1, t1) => (Exit c, w1, start ++ t1)
      | (OutOfFuel, w1, t1) => (OutOfFuel, w1, start ++ t1)
      end
  end.
Proof.
  cbn [gallery_loop]. cbv zeta.
  unfold bind at 1. unfold console_log at 1, emit at 1.
  unfold bind at 1. unfold page_click, browser_call.
  destruct (env_call env (ncall w)); [reflexivity|].
  unfold bind at 1.
  destruct (waitForDownloadCompletion env (S fuel) d (called w))
    as [[[f| | |] w1] t1]; try reflexivity.
  unfold bind at 1. unfold console_log at 1, emit at 1.
  unfold bind at 1.
  destruct (handleNextButton env (photoCount + 1) w1)
    as [[[hasNext| | |] w2] t2]; try (cbn; now rewrite <- ?app_assoc).
  destruct hasNext; cbn [negb].
  - destruct (gallery_loop env fuel d (photoCount + 1) w2) as [[o w3] t3].
    cbn. now rewrite <- !app_assoc.
  - unfold ret. cbn. now rewrite app_nil_r.
Qed.

End Loop.

Lemma gallery_loop_trace env d fuel : forall photoCount w o w' t,
  gallery_loop env fuel d photoCount w = (o, w', t) ->
  loop_trace photoCount o t /\ session w' = session w.
Proof.
  induction fuel as [|fuel IH]; intros pc w o w' t.
  - simpl. intros [= <- <- <-]. split; [constructor|reflexivity].
  - rewrite gallery_loop_step. cbv zeta.
    destruct (env_call env (ncall w)) as [msg|].
    { intros [= <- <- <-]. split; [constructor|reflexivity]. }
    destruct (waitForDownloadCompletion env (S fuel) d (called w))
      as [[ow w1] t1] eqn:Ew.
    destruct (waitForDownloadCompletion_trace _ _ _ _ _ _ _ Ew)
      as (Ht & Hs & _ & He & Hx).
    destruct ow as [f|e|c|].
    + destruct (handleNextButton_total env (pc + 1) w1)
        as (hasNext & w2 & t2 & En & Hp & Hs2).
      rewrite En. destruct hasNext.
      * destruct (gallery_loop env fuel d (pc + 1) w2) as [[o3 w3] t3] eqn:El.
        intros [= <- <- <-]. destruct (IH _ _ _ _ _ El) as (Hl & Hs3).
        split; [|simpl in *; congruence].
        rewrite <- !app_assoc. now apply LT_advance.
      * intros [= <- <- <-]. split; [|simpl in *; congruence].
        now apply LT_end.
    + intros [= <- <- <-]. destruct (He e eq_refl) as (-> & pre & ->).
      split; [|simpl in *; congruence].
      apply LT_timed_out. unfold watcher_trace in *.
      apply Forall_app in Ht. tauto.
    + now destruct (Hx c).
    + intros [= <- <- <-]. split; [|simpl in *; congruence].
      now apply LT_still_waiting.
Qed.

(** ** The whole run *)

Section Run.

Variable env : Env.

Lemma main_try_unfold fuel url d w :
  main_try env fuel url d w =
  match env_call env (ncall w) with
  | Some e => (Throw (BrowserError e), called w, [EvGoto url])
  | None =>
      match gallery_loop env fuel d 0 (called w) with
      | (Ret photoCount, w1, t1) =>
          (Ret tt, w1,
           [EvGoto url] ++ t1 ++ [EvLog (COMPLETION (photoCount + 1))])
      | (Throw e, w1, t1) => (Throw e, w1, [EvGoto url] ++ t1)
      | (Exit c, w1, t1) => (Exit c, w1, [EvGoto url] ++ t1)
      | (OutOfFuel, w1, t1) => (OutOfFuel, w1, [EvGoto url] ++ t1)
      end
  end.
Proof.
  unfold main_try. unfold bind at 1. unfold page_goto, browser_call.
  destruct (env_call env (ncall w)); [reflexivity|].
  unfold bind, console_log, emit.
  destruct (gallery_loop env fuel d 0 (called w)) as [[[n| | |] w1] t1];
    reflexivity.
Qed.

(** [main] when the download directory is not empty. *)
Lemma main_directory_not_empty fuel dirname url w :
  listing env w <> [] ->
  main env fuel dirname url w =
  let d := path_join dirname DOWNLOAD_DIR in
  (Exit 1%Z, read env w,
   [EvMkdir d; EvReaddir d;
    EvError (ERROR_MESSAGE
               (directory_not_empty d (List.length (listing env w))));
    EvExit 1%Z]).
Proof.
  intros H. unfold main, checkDirectoryEmpty, try_catch, bind, fs_mkdir, emit,
    fs_readdir, throw, console_error, process_exit, emit, read. cbn.
  destruct (listing env w) as [|f l]; [congruence|]. reflexivity.
Qed.

(** [main] when the directory is empty and the browser starts: the [try]
    block runs, and [finally] closes the browser after a value and after
    an exception. *)
Lemma main_set_up fuel dirname url w :
  listing env w = [] -> setup_resolves env w ->
  main env fuel dirname url w =
  let d := path_join dirname DOWNLOAD_DIR in
  match main_try env fuel url d (set_up env w) with
  | (Ret a, w1, t1) => (Ret a, closed w1, setup_trace d ++ t1 ++ [EvClose])
  | (Throw e, w1, t1) => (Throw e, closed w1, setup_trace d ++ t1 ++ [EvClose])
  | (Exit c, w1, t1) => (Exit c, w1, setup_trace d ++ t1)
  | (OutOfFuel, w1, t1) => (OutOfFuel, w1, setup_trace d ++ t1)
  end.
Proof.
  intros Hl (H0 & H1 & H2 & H3).
  unfold main, checkDirectoryEmpty, setupBrowser, configureDownloads,
    try_catch, try_finally, bind, fs_mkdir, emit, fs_readdir, ret,
    puppeteer_launch, browser_newPage, page_createCDPSession, client_send,
    browser_call, browser_close, called, set_up, closed.
  cbn. rewrite Hl. cbn. rewrite H0. cbn. rewrite H1. cbn. rewrite H2. cbn.
  rewrite H3. cbn.
  destruct (main_try env fuel url _ _) as [[[a| | |] w1] t1]; reflexivity.
Qed.

(** [main] when a call of the set-up rejects: the exception leaves [main]
    and the [try] block is never entered. *)
Lemma main_setup_rejected fuel dirname url w :
  listing env w = [] -> ~ setup_resolves env w ->
  exists message w' t,
    main env fuel dirname url w = (Throw (BrowserError message), w', t) /\
    (forall e, In e t -> In e (setup_trace (path_join dirname DOWNLOAD_DIR))).
Proof.
  intros Hl Hn.
  unfold main, checkDirectoryEmpty, setupBrowser, configureDownloads,
    try_catch, try_finally, bind, fs_mkdir, emit, fs_readdir, ret,
    puppeteer_launch, browser_newPage, page_createCDPSession, client_send,
    browser_call, browser_close, called, setup_trace.
  cbn. rewrite Hl. cbn.
  destruct (env_call env (ncall w)) as [m|] eqn:H0; cbn.
  { do 3 eexists. split; [reflexivity|]. simpl. tauto. }
  destruct (env_call env (S (ncall w))) as [m|] eqn:H1; cbn.
  { do 3 eexists. split; [reflexivity|]. simpl. tauto. }
  destruct (env_call env (S (S (ncall w)))) as [m|] eqn:H2; cbn.
  { do 3 eexists. split; [reflexivity|]. simpl. tauto. }
  destruct (env_call env (S (S (S (ncall w))))) as [m|] eqn:H3; cbn.
  { do 3 eexists. split; [reflexivity|]. simpl. tauto. }
  destruct Hn. repeat split; assumption.
Qed.

End Run.

Lemma setup_resolves_dec env w : {setup_resolves env w} + {~ setup_resolves env w}.
Proof.
  unfold setup_resolves.
  destruct (env_call env (ncall w)); [right; intros (H & _); discriminate|].
  destruct (env_call env (S (ncall w)));
    [right; intros (_ & H & _); discriminate|].
  destruct (env_call env (S (S (ncall w))));
    [right; intros (_ & _ & H & _); discriminate|].
  destruct (env_call env (S (S (S (ncall w)))));
    [right; intros (_ & _ & _ & H); discriminate|].
  left. repeat split.
Qed.

Lemma loop_never_exits photoCount o t :
  loop_trace photoCount o t -> forall c, o <> Exit c.
Proof. induction 1; intros c; try discriminate. apply IHloop_trace. Qed.

Lemma main_catch_trace env fuel dirname url w o w' t :
  main_catch env fuel dirname url w = (o, w', t) ->
  run_trace (path_join dirname DOWNLOAD_DIR) url o t.
Proof.
  unfold main_catch, try_catch.
  destruct (listing env w) as [|f0 l0] eqn:El.
  2:{ rewrite main_directory_not_empty by congruence. cbv zeta.
      intros [= <- <- <-]. rewrite El. constructor. simpl. lia. }
  destruct (setup_resolves_dec env w) as [Hs|Hs].
  2:{ destruct (main_setup_rejected env fuel dirname url w El Hs)
        as (m & w1 & t1 & -> & Ht).
      unfold bind, console_error, process_exit, emit. cbn.
      intros [= <- <- <-]. now apply RT_setup_rejected. }
  rewrite (main_set_up env fuel dirname url w El Hs). cbv zeta.
  rewrite main_try_unfold.
  destruct (env_call env (ncall (set_up env w))) as [m|].
  { unfold bind, console_error, process_exit, emit. cbn.
    intros [= <- <- <-]. apply RT_goto_rejected. }
  destruct (gallery_loop env fuel _ 0 _) as [[ol wl] tl] eqn:E.
  apply gallery_loop_trace in E. destruct E as (Hl & _).
  destruct ol as [n|e|c|].
  - intros [= <- <- <-]. rewrite <- !app_assoc. now apply RT_done.
  - unfold bind, console_error, process_exit, emit. cbn.
    intros [= <- <- <-]. rewrite <- !app_assoc. simpl.
    now apply (RT_loop_thrown _ _ e tl).
  - now destruct (loop_never_exits _ _ _ Hl c).
  - intros [= <- <- <-]. now apply RT_loop_running.
Qed.

(** ** Counting transitions in a trace *)

Lemma count_app p t1 t2 : count p (t1 ++ t2) = count p t1 + count p t2.
Proof. unfold count. now rewrite filter_app, length_app. Qed.

Lemma reported_count_app t1 t2 :
  reported_count (t1 ++ t2) =
  match reported_count t2 with
  | Some n => Some n
  | None => reported_count t1
  end.
Proof.
  induction t1 as [|e t1 IH]; simpl.
  - now destruct (reported_count t2).
  - rewrite IH. destruct (reported_count t2); [reflexivity|].
    reflexivity.
Qed.

Lemma watcher_counts tw :
  watcher_trace tw ->
  confirmations tw = 0 /\ advances tw = 0 /\ download_clicks tw = 0.
Proof.
  unfold confirmations, advances, download_clicks, count.
  induction 1 as [|e tw He _ IH]; [now repeat split|].
  destruct IH as (I1 & I2 & I3).
  destruct e; try discriminate; simpl; auto.
  simpl in He. apply Z.eqb_eq in He. subst ms. simpl. auto.
Qed.

Lemma pagination_counts photoCount hasNext tn :
  pagination_trace photoCount hasNext tn ->
  confirmations tn = 0 /\ download_clicks tn = 0 /\
  advances tn = (if hasNext then 1 else 0).
Proof. destruct 1; now repeat split. Qed.

Lemma loop_counts photoCount o t :
  loop_trace photoCount o t ->
  forall n, o = Ret n ->
    n = photoCount + advances t /\ confirmations t = advances t + 1.
Proof.
  induction 1 as [| | | |pc tw f tn Hw Hp|pc tw f tn o t Hw Hp Hl IH];
    intros n; try discriminate.
  - intros [= <-].
    apply watcher_counts in Hw. destruct Hw as (W1 & W2 & _).
    apply pagination_counts in Hp. destruct Hp as (P1 & _ & P2).
    unfold confirmations, advances in *. rewrite !count_app.
    rewrite W1, W2, P1, P2. simpl. lia.
  - intros Ho. destruct (IH n Ho) as (I1 & I2).
    apply watcher_counts in Hw. destruct Hw as (W1 & W2 & _).
    apply pagination_counts in Hp. destruct Hp as (P1 & _ & P2).
    unfold confirmations, advances in *. rewrite !count_app.
    rewrite W1, W2, P1, P2. simpl. lia.
Qed.

(** ** The script's three ways *)

Lemma script_cases env url_tail argv dirname fuel w :
  script env url_tail argv dirname fuel w =
  if Nat.ltb (List.length argv) 3 then (Exit 1%Z, w, missing_argument_trace)
  else if isValidUrl url_tail (nth 2 argv "")
       then main_catch env fuel dirname (nth 2 argv "") w
       else (Exit 1%Z, w, invalid_url_trace).
Proof.
  unfold script. destruct (Nat.ltb (List.length argv) 3); [reflexivity|].
  destruct (isValidUrl url_tail (nth 2 argv "")); reflexivity.
Qed.

(** A run of the script is a run of [main().catch(...)] unless the
    arguments are rejected first. *)
Lemma script_trace env url_tail argv dirname fuel w o w' t :
  script env url_tail argv dirname fuel w = (o, w', t) ->
  (o = Exit 1%Z /\ (t = missing_argument_trace \/ t = invalid_url_trace)) \/
  run_trace (path_join dirname DOWNLOAD_DIR) (nth 2 argv "") o t.
Proof.
  rewrite script_cases.
  destruct (Nat.ltb (List.length argv) 3).
  { intros [= <- <- <-]. left. auto. }
  destruct (isValidUrl url_tail (nth 2 argv "")).
  - intros H. right. eapply main_catch_trace. exact H.
  - intros [= <- <- <-]. left. auto.
Qed.

Lemma confirmed_names_app t1 t2 :
  confirmed_names (t1 ++ t2) = confirmed_names t1 ++ confirmed_names t2.
Proof. apply flat_map_app. Qed.

Lemma confirmed_names_none t :
  (forall e, In e t -> is_confirmation e = false) -> confirmed_names t = [].
Proof.
  induction t as [|e t IH]; intros H; [reflexivity|].
  simpl. rewrite IH by (intros x Hx; apply H; now right).
  specialize (H e (or_introl eq_refl)).
  destruct e as [| | | | | | | | | | | | |m| |]; try reflexivity.
  destruct m; try reflexivity. discriminate.
Qed.

Lemma pagination_confirms_nothing photoCount hasNext tn :
  pagination_trace photoCount hasNext tn -> confirmed_names tn = [].
Proof. destruct 1; reflexivity. Qed.

Lemma confirmations_length t :
  confirmations t = List.length (confirmed_names t).
Proof.
  unfold confirmations, count, confirmed_names.
  induction t as [|e t IH]; [reflexivity|].
  simpl. rewrite length_app, <- IH.
  destruct e as [| | | | | | | | | | | | |m| |]; try reflexivity.
  destruct m; reflexivity.
Qed.

Lemma watcher_confirms_nothing tw :
  watcher_trace tw -> confirmed_names tw = [].
Proof.
  intros H. apply confirmed_names_none. intros e Hin.
  unfold watcher_trace in H. rewrite Forall_forall in H.
  specialize (H _ Hin). destruct e; try discriminate; reflexivity.
Qed.

(** What the loop prints and sleeps is what happened in it: a success
    message for each file the watcher returned, a settle delay for each
    pagination step that returned [true]. *)
Lemma loop_history_trace env d fuel : forall photoCount w o w' t,
  gallery_loop env fuel d photoCount w = (o, w', t) ->
  confirmed_names t = map name (watcher_returns env fuel d photoCount w) /\
  advances t = pagination_advances env fuel d photoCount w /\
  forall n, o = Ret n ->
    n = photoCount + pagination_advances env fuel d photoCount w /\
    List.length (watcher_returns env fuel d photoCount w)
      = pagination_advances env fuel d photoCount w + 1.
Proof.
  unfold watcher_returns, pagination_advances.
  induction fuel as [|fuel IH]; intros pc w o w' t.
  - simpl. intros [= <- <- <-]. repeat split; discriminate.
  - rewrite gallery_loop_step. cbv zeta. cbn [loop_history].
    unfold page_click, browser_call.
    destruct (env_call env (ncall w)) as [msg|].
    { intros [= <- <- <-]. repeat split; discriminate. }
    destruct (waitForDownloadCompletion env (S fuel) d (called w))
      as [[ow w1] t1] eqn:Ew.
    destruct (waitForDownloadCompletion_trace _ _ _ _ _ _ _ Ew)
      as (Ht & _).
    pose proof (watcher_confirms_nothing _ Ht) as Hn1.
    destruct (watcher_counts _ Ht) as (_ & Ha1 & _).
    assert (forall o0 : Outcome nat,
              (forall n, o0 <> Ret n) ->
              (o0, w1, [EvLog (DOWNLOAD_START pc); EvPageClick IMAGE_LINK]
                        ++ t1) = (o, w', t) ->
              confirmed_names t = map name (@nil Filename) /\
              advances t = 0 /\
              forall n, o = Ret n ->
                n = pc + 0 /\ List.length (@nil Filename) = 0 + 1) as Stop.
    { intros o0 Hne [= <- <- <-]. split; [|split].
      - unfold confirmed_names in *. simpl. exact Hn1.
      - unfold advances, count in *. simpl. exact Ha1.
      - intros n Hn. now destruct (Hne n). }
    destruct ow as [f|e|c|]; try (apply Stop; discriminate).
    destruct (handleNextButton_total env (pc + 1) w1)
      as (hasNext & w2 & t2 & En & Hpt & _).
    rewrite En.
    pose proof (pagination_confirms_nothing _ _ _ Hpt) as Hn2.
    destruct (pagination_counts _ _ _ Hpt) as (_ & _ & Ha2).
    destruct hasNext.
    + destruct (gallery_loop env fuel d (pc + 1) w2) as [[o3 w3] t3] eqn:El.
      destruct (IH _ _ _ _ _ El) as (I1 & I2 & I3).
      destruct (loop_history env fuel d (pc + 1) w2) as [files k].
      simpl in I1, I2, I3.
      intros [= <- <- <-]. split; [|split].
      * unfold confirmed_names in *. simpl.
        repeat (rewrite flat_map_app; simpl). rewrite Hn1, Hn2, I1.
        reflexivity.
      * unfold advances, count in *. simpl.
        repeat (rewrite filter_app, length_app; simpl).
        rewrite Ha1, Ha2, I2. simpl. lia.
      * intros n Hn. destruct (I3 n Hn) as (I4 & I5). simpl. lia.
    + intros [= <- <- <-]. split; [|split].
      * unfold confirmed_names in *. simpl.
        repeat (rewrite flat_map_app; simpl). rewrite Hn1, Hn2.
        reflexivity.
      * unfold advances, count in *. simpl.
        repeat (rewrite filter_app, length_app; simpl).
        rewrite Ha1, Ha2. reflexivity.
      * intros n [= <-]. simpl. lia.
Qed.

(** A run of the script that ends normally went through the set-up, the
    navigation and a loop that returned. *)
Lemma script_returns env url_tail argv dirname fuel w w' t :
  script env url_tail argv dirname fuel w = (Ret tt, w', t) ->
  exists n wl tl,
    gallery_loop env fuel (path_join dirname DOWNLOAD_DIR) 0
      (called (set_up env w)) = (Ret n, wl, tl) /\
    w' = closed wl /\
    t = setup_trace (path_join dirname DOWNLOAD_DIR) ++
        [EvGoto (nth 2 argv "")] ++ tl ++
        [EvLog (COMPLETION (n + 1)); EvClose].
Proof.
  rewrite script_cases.
  destruct (Nat.ltb (List.length argv) 3); [discriminate|].
  destruct (isValidUrl url_tail (nth 2 argv "")); [|discriminate].
  unfold main_catch, try_catch.
  destruct (listing env w) as [|f0 l0] eqn:El.
  2:{ rewrite main_directory_not_empty by congruence. discriminate. }
  destruct (setup_resolves_dec env w) as [Hs|Hs].
  2:{ destruct (main_setup_rejected env fuel dirname (nth 2 argv "") w El Hs)
        as (m & w1 & t1 & -> & Ht).
      unfold bind, console_error, process_exit, emit. discriminate. }
  rewrite (main_set_up env fuel dirname (nth 2 argv "") w El Hs). cbv zeta.
  rewrite main_try_unfold.
  destruct (env_call env (ncall (set_up env w))) as [m|].
  { unfold bind, console_error, process_exit, emit. discriminate. }
  destruct (gallery_loop env fuel _ 0 _) as [[ol wl] tl].
  destruct ol as [n|e|c|]; try discriminate.
  intros [= <- <-]. exists n, wl, tl. split; [reflexivity|].
  split; [reflexivity|]. now rewrite <- !app_assoc.
Qed.

(** C2.  In every run of the script that ends normally, the count the
    completion message reports is the number of files
    [waitForDownloadCompletion] returned in the loop of the run, which is
    the number of times [handleNextButton] returned [true] in it plus one.
    The success messages of the run name these files, in order, and the
    settle delays of the run are as many as the [true] results: the
    reported count is the number of confirmed downloads, which is the
    number of advances plus one. *)
Theorem reported_count_is_number_of_downloads
    (env : Env) (url_tail : string -> list ascii -> bool)
    (argv : list string) (dirname : string) (fuel : nat)
    (w w' : World) (t : list Event) :
  script env url_tail argv dirname fuel w = (Ret tt, w', t) ->
  let d := path_join dirname DOWNLOAD_DIR in
  let files := watcher_returns env fuel d 0 (called (set_up env w)) in
  let n := pagination_advances env fuel d 0 (called (set_up env w)) in
  reported_count t = Some (List.length files) /\
  List.length files = n + 1 /\
  confirmed_names t = map name files /\
  confirmations t = List.length files /\
  advances t = n /\
  reported_count t = Some (confirmations t) /\
  confirmations t = advances t + 1.
Proof.
  intros H. cbv zeta.
  destruct (script_returns _ _ _ _ _ _ _ _ H) as (k & wl & tl & El & _ & ->).
  destruct (loop_history_trace _ _ _ _ _ _ _ _ El) as (L1 & L2 & L3).
  destruct (L3 k eq_refl) as (L4 & L5). simpl in L4. subst k.
  set (d := path_join dirname DOWNLOAD_DIR) in *.
  set (files := watcher_returns env fuel d 0 (called (set_up env w))) in *.
  set (n := pagination_advances env fuel d 0 (called (set_up env w))) in *.
  assert (confirmed_names
            (setup_trace d ++ [EvGoto (nth 2 argv "")] ++ tl ++
             [EvLog (COMPLETION (n + 1)); EvClose]) = map name files) as Hc.
  { rewrite !confirmed_names_app. simpl. now rewrite app_nil_r. }
  assert (confirmations
            (setup_trace d ++ [EvGoto (nth 2 argv "")] ++ tl ++
             [EvLog (COMPLETION (n + 1)); EvClose]) = List.length files) as Hk.
  { now rewrite confirmations_length, Hc, length_map. }
  assert (advances
            (setup_trace d ++ [EvGoto (nth 2 argv "")] ++ tl ++
             [EvLog (COMPLETION (n + 1)); EvClose]) = n) as Ha.
  { unfold advances in *. rewrite !count_app, L2. unfold count. simpl. lia. }
  assert (reported_count
            (setup_trace d ++ [EvGoto (nth 2 argv "")] ++ tl ++
             [EvLog (COMPLETION (n + 1)); EvClose]) = Some (n + 1)) as Hr.
  { now rewrite !reported_count_app. }
  rewrite Hk, Ha, Hr, L5. repeat split; try reflexivity. exact Hc.
Qed.

(** ** End of the gallery *)

Lemma watcher_no_log tw m : watcher_trace tw -> ~ In (EvLog m) tw.
Proof.
  intros H Hin. unfold watcher_trace in H. rewrite Forall_forall in H.
  specialize (H _ Hin). discriminate.
Qed.

Lemma pagination_end photoCount hasNext tn :
  pagination_trace photoCount hasNext tn ->
  In (EvLog END_OF_ALBUM) tn ->
  hasNext = false /\ exists pre, tn = pre ++ [EvLog END_OF_ALBUM].
Proof.
  destruct 1; intros Hin.
  - split; [reflexivity|]. now exists [EvLog (CURRENT_URL url);
      EvWaitForSelector NEXT_BUTTON TIMEOUTS.ELEMENT_VISIBLE].
  - simpl in Hin. repeat destruct Hin as [Hin|Hin]; discriminate || contradiction.
  - split; [reflexivity|]. now exists [EvLog (CURRENT_URL url);
      EvWaitForSelector NEXT_BUTTON TIMEOUTS.ELEMENT_VISIBLE;
      EvLog (NAVIGATION_PROGRESS photoCount); EvHandleClick].
  - split; [reflexivity|]. now exists [EvLog (CURRENT_URL url);
      EvWaitForSelector NEXT_BUTTON TIMEOUTS.ELEMENT_VISIBLE;
      EvLog (NAVIGATION_PROGRESS photoCount); EvHandleClick;
      EvWaitForSelector IMAGE_LINK TIMEOUTS.ELEMENT_VISIBLE].
  - simpl in Hin. repeat destruct Hin as [Hin|Hin]; discriminate || contradiction.
Qed.

Lemma in_iteration_start_log photoCount m :
  In (EvLog m) (iteration_start photoCount) -> m = DOWNLOAD_START photoCount.
Proof.
  simpl. intros [H|[H|[]]]; [now injection H|discriminate].
Qed.

(** Once the end-of-album message is printed the loop is over: it is the
    last event of the loop, which ends with a value. *)
Lemma loop_end_of_album photoCount o t :
  loop_trace photoCount o t ->
  In (EvLog END_OF_ALBUM) t ->
  exists n pre, o = Ret n /\ t = pre ++ [EvLog END_OF_ALBUM].
Proof.
  induction 1 as [pc|pc m|pc tw Hw|pc tw Hw|pc tw f tn Hw Hp
                  |pc tw f tn o t Hw Hp Hl IH]; intros Hin.
  - destruct Hin.
  - apply in_iteration_start_log in Hin. discriminate.
  - apply in_app_or in Hin. destruct Hin as [Hin|Hin].
    + apply in_iteration_start_log in Hin. discriminate.
    + now destruct (watcher_no_log _ _ Hw Hin).
  - apply in_app_or in Hin. destruct Hin as [Hin|Hin].
    + apply in_iteration_start_log in Hin. discriminate.
    + apply in_app_or in Hin. destruct Hin as [Hin|[Hin|[]]].
      * now destruct (watcher_no_log _ _ Hw Hin).
      * discriminate.
  - apply in_app_or in Hin. destruct Hin as [Hin|Hin].
    { apply in_iteration_start_log in Hin. discriminate. }
    apply in_app_or in Hin. destruct Hin as [Hin|Hin].
    { now destruct (watcher_no_log _ _ Hw Hin). }
    apply in_app_or in Hin. destruct Hin as [[Hin|[]]|Hin]; [discriminate|].
    destruct (pagination_end _ _ _ Hp Hin) as (_ & pre & ->).
    exists pc, (iteration_start pc ++ tw ++ [EvLog (DOWNLOAD_SUCCESS f)] ++ pre).
    split; [reflexivity|]. now rewrite <- !app_assoc.
  - apply in_app_or in Hin. destruct Hin as [Hin|Hin].
    { apply in_iteration_start_log in Hin. discriminate. }
    apply in_app_or in Hin. destruct Hin as [Hin|Hin].
    { now destruct (watcher_no_log _ _ Hw Hin). }
    apply in_app_or in Hin. destruct Hin as [[Hin|[]]|Hin]; [discriminate|].
    apply in_app_or in Hin. destruct Hin as [Hin|Hin].
    { destruct (pagination_end _ _ _ Hp Hin) as (D & _). discriminate. }
    destruct (IH Hin) as (n & pre & -> & ->).
    exists n, (iteration_start pc ++ tw ++
               [EvLog (DOWNLOAD_SUCCESS f)] ++ tn ++ pre).
    split; [reflexivity|]. now rewrite <- !app_assoc.
Qed.

Lemma in_setup_trace_log d m : ~ In (EvLog m) (setup_trace d).
Proof.
  simpl. intros H. repeat destruct H as [H|H]; discriminate || contradiction.
Qed.

Lemma gallery_loop_reaches env d fuel photoCount w fuel' photoCount' w' t :
  reaches_iteration env d fuel photoCount w fuel' photoCount' w' t ->
  gallery_loop env fuel d photoCount w =
  match gallery_loop env fuel' d photoCount' w' with
  | (o, w'', t') => (o, w'', t ++ t')
  end.
Proof.
  induction 1 as [fuel pc w
                 |fuel pc w f w1 t1 w2 t2 fuel' pc' w' t Hc Hw Hn Hr IH].
  - now destruct (gallery_loop env fuel d pc w) as [[o w''] t'].
  - rewrite gallery_loop_step. cbv zeta. rewrite Hc, Hw, Hn, IH.
    destruct (gallery_loop env fuel' d pc' w') as [[o w''] t'].
    now rewrite <- !app_assoc.
Qed.

(** C4.  Whatever is raised inside [handleNextButton] -- while it waits
    for the next control, clicks it, or waits for the image link after the
    click -- the step prints the end-of-album message and returns [false]
    (EndOfGallery), and the step never ends with an exception.  A run in
    which this happens, at whatever iteration, ends normally: after the
    step come the completion message and the closing of the browser, and
    the exit code is 0.  So does every run whose trace holds the
    end-of-album message. *)
Theorem pagination_failure_is_end_of_gallery (env : Env) :
  (forall photoCount w,
     pagination_raises env w ->
     exists w' t,
       handleNextButton env photoCount w = (Ret false, w', t) /\
       In (EvLog END_OF_ALBUM) t) /\
  (forall photoCount w, exists hasNext,
     outcome (handleNextButton env photoCount w) = Ret hasNext) /\
  (forall fuel dirname url w fuel' photoCount w' tpre filename w1 t1,
     let d := path_join dirname DOWNLOAD_DIR in
     listing env w = [] ->
     setup_resolves env w ->
     env_call env (ncall (set_up env w)) = None ->
     reaches_iteration env d fuel 0 (called (set_up env w))
       (S fuel') photoCount w' tpre ->
     env_call env (ncall w') = None ->
     waitForDownloadCompletion env (S fuel') d (called w')
       = (Ret filename, w1, t1) ->
     pagination_raises env w1 ->
     exists w2 t2,
       handleNextButton env (photoCount + 1) w1 = (Ret false, w2, t2) /\
       main_catch env fuel dirname url w =
         (Ret tt, closed w2,
          setup_trace d ++ [EvGoto url] ++ tpre ++
          iteration_start photoCount ++ t1 ++
          [EvLog (DOWNLOAD_SUCCESS (name filename))] ++ t2 ++
          [EvLog (COMPLETION (photoCount + 1)); EvClose]) /\
       exit_code (outcome (main_catch env fuel dirname url w)) = Some 0%Z) /\
  (forall url_tail argv dirname fuel w o w' t,
     script env url_tail argv dirname fuel w = (o, w', t) ->
     In (EvLog END_OF_ALBUM) t ->
     o = Ret tt /\ exit_code o = Some 0%Z /\
     exists pre n,
       t = pre ++ [EvLog END_OF_ALBUM; EvLog (COMPLETION n); EvClose]).
Proof.
  assert (forall photoCount w,
     pagination_raises env w ->
     exists w' t,
       handleNextButton env photoCount w = (Ret false, w', t) /\
       In (EvLog END_OF_ALBUM) t) as A.
  { intros pc w H. rewrite handleNextButton_cases. cbv zeta.
    destruct H as [(m & ->)|[(-> & m & ->)|(-> & -> & m & ->)]];
      do 2 eexists; (split; [reflexivity|]); simpl; tauto. }
  split; [exact A|]. split; [|split].
  - intros pc w.
    destruct (handleNextButton_total env pc w) as (b & w' & t & -> & _).
    now exists b.
  - intros fuel dn url w fuel' pc w' tpre f w1 t1 d Hl Hs Hg Hr Hc Hw Hp.
    destruct (A (pc + 1) w1 Hp) as (w2 & t2 & Hn & _).
    exists w2, t2. split; [exact Hn|].
    assert (main_catch env fuel dn url w =
         (Ret tt, closed w2,
          setup_trace d ++ [EvGoto url] ++ tpre ++
          iteration_start pc ++ t1 ++
          [EvLog (DOWNLOAD_SUCCESS (name f))] ++ t2 ++
          [EvLog (COMPLETION (pc + 1)); EvClose])) as E.
    { unfold main_catch, try_catch.
      rewrite (main_set_up env fuel dn url w Hl Hs). cbv zeta.
      rewrite main_try_unfold, Hg. fold d.
      rewrite (gallery_loop_reaches _ _ _ _ _ _ _ _ _ Hr).
      rewrite gallery_loop_step. cbv zeta. rewrite Hc, Hw, Hn.
      unfold iteration_start. cbn [app]. f_equal.
      repeat (rewrite <- app_assoc; cbn [app]). reflexivity. }
    rewrite E. split; reflexivity.
  - intros url_tail argv dn fuel w o w' t H Hin.
    apply script_trace in H.
    destruct H as [(_ & [-> | ->])|H].
    { simpl in Hin. repeat destruct Hin as [Hin|Hin];
        discriminate || contradiction. }
    { simpl in Hin. repeat destruct Hin as [Hin|Hin];
        discriminate || contradiction. }
    assert (forall tl ol, loop_trace 0 ol tl ->
              In (EvLog END_OF_ALBUM)
                 (setup_trace (path_join dn DOWNLOAD_DIR) ++
                  [EvGoto (nth 2 argv "")] ++ tl) ->
              exists n pre, ol = Ret n /\ tl = pre ++ [EvLog END_OF_ALBUM])
      as L.
    { intros tl ol Hl Hi. apply in_app_or in Hi. destruct Hi as [Hi|Hi].
      { now destruct (in_setup_trace_log _ _ Hi). }
      destruct Hi as [Hi|Hi]; [discriminate|].
      now apply (loop_end_of_album _ _ _ Hl). }
    inversion H as [n Hn|m t0 Ht|m|e tl Hl|tl Hl|n tl Hl]; subst.
    + simpl in Hin. repeat destruct Hin as [Hin|Hin];
        discriminate || contradiction.
    + apply in_app_or in Hin. destruct Hin as [Hin|Hin].
      * apply Ht in Hin. now destruct (in_setup_trace_log _ _ Hin).
      * simpl in Hin. repeat destruct Hin as [Hin|Hin];
          discriminate || contradiction.
    + apply in_app_or in Hin. destruct Hin as [Hin|Hin].
      * now destruct (in_setup_trace_log _ _ Hin).
      * simpl in Hin. repeat destruct Hin as [Hin|Hin];
          discriminate || contradiction.
    + assert (In (EvLog END_OF_ALBUM)
                (setup_trace (path_join dn DOWNLOAD_DIR) ++
                 [EvGoto (nth 2 argv "")] ++ tl)) as Hi.
      { rewrite !app_assoc in Hin. apply in_app_or in Hin.
        destruct Hin as [Hin|Hin]; [now rewrite <- !app_assoc in Hin|].
        simpl in Hin. repeat destruct Hin as [Hin|Hin];
          discriminate || contradiction. }
      destruct (L _ _ Hl Hi) as (n & pre & D & _). discriminate.
    + destruct (L _ _ Hl Hin) as (n & pre & D & _). discriminate.
    + assert (In (EvLog END_OF_ALBUM)
                (setup_trace (path_join dn DOWNLOAD_DIR) ++
                 [EvGoto (nth 2 argv "")] ++ tl)) as Hi.
      { rewrite !app_assoc in Hin. apply in_app_or in Hin.
        destruct Hin as [Hin|Hin]; [now rewrite <- !app_assoc in Hin|].
        simpl in Hin. repeat destruct Hin as [Hin|Hin];
          discriminate || contradiction. }
      destruct (L _ _ Hl Hi) as (n' & pre & _ & ->).
      repeat split.
      exists (setup_trace (path_join dn DOWNLOAD_DIR) ++
              [EvGoto (nth 2 argv "")] ++ pre), (n + 1).
      now rewrite <- !app_assoc.
Qed.

(** ** Fatal failures *)

(** C5.  Whenever the download watcher times out in a run -- the browser
    set up, the page loaded, any number of photos downloaded before, the
    image link clicked -- nothing follows the watcher's last clock reading
    but the closing of the browser, the report of the error and the exit
    with code 1: no pagination step (the photo is not skipped), no second
    click (the download is not retried), and no session left open. *)
Theorem download_timeout_aborts_run
    (env : Env) (fuel : nat) (dirname url : string) (w : World)
    (fuel' photoCount : nat) (w' w1 : World) (tpre t1 : list Event) :
  let d := path_join dirname DOWNLOAD_DIR in
  listing env w = [] ->
  setup_resolves env w ->
  env_call env (ncall (set_up env w)) = None ->
  reaches_iteration env d fuel 0 (called (set_up env w))
    (S fuel') photoCount w' tpre ->
  env_call env (ncall w') = None ->
  waitForDownloadCompletion env (S fuel') d (called w')
    = (Throw download_timed_out, w1, t1) ->
  main_catch env fuel dirname url w =
    (Exit 1%Z, closed w1,
     setup_trace d ++ [EvGoto url] ++ tpre ++
     iteration_start photoCount ++ t1 ++
     [EvClose; EvError (CRITICAL_ERROR download_timed_out); EvExit 1%Z]) /\
  session (closed w1) = false /\
  exit_code (outcome (main_catch env fuel dirname url w)) = Some 1%Z /\
  watcher_trace t1.
Proof.
  intros d Hl Hs Hg Hr Hc Hw.
  assert (main_catch env fuel dirname url w =
    (Exit 1%Z, closed w1,
     setup_trace d ++ [EvGoto url] ++ tpre ++
     iteration_start photoCount ++ t1 ++
     [EvClose; EvError (CRITICAL_ERROR download_timed_out); EvExit 1%Z]))
    as E.
  { unfold main_catch, try_catch.
    rewrite (main_set_up env fuel dirname url w Hl Hs). cbv zeta.
    rewrite main_try_unfold, Hg. fold d.
    rewrite (gallery_loop_reaches _ _ _ _ _ _ _ _ _ Hr).
    rewrite gallery_loop_step. cbv zeta. rewrite Hc, Hw.
    unfold bind, console_error, process_exit, emit, iteration_start.
    cbn [app]. f_equal.
    repeat (rewrite <- app_assoc; cbn [app]). reflexivity. }
  rewrite E. repeat split.
  now destruct (waitForDownloadCompletion_trace _ _ _ _ _ _ _ Hw).
Qed.

(** C9.  A run that ends normally reports at least one photo; and when the
    very first image-link click is rejected the run does not end normally:
    the browser is closed, the error is reported as critical and the
    process exits with code 1, no completion message being printed. *)
Theorem normal_run_reports_at_least_one_photo (env : Env) :
  (forall fuel dirname url w w' t,
     main_catch env fuel dirname url w = (Ret tt, w', t) ->
     exists n, reported_count t = Some n /\ 1 <= n) /\
  (forall fuel dirname url w message,
     listing env w = [] ->
     setup_resolves env w ->
     env_call env (ncall (set_up env w)) = None ->
     env_call env (S (ncall (set_up env w))) = Some message ->
     main_catch env (S fuel) dirname url w =
       (Exit 1%Z, closed (called (called (set_up env w))),
        setup_trace (path_join dirname DOWNLOAD_DIR) ++
        [EvGoto url; EvLog (DOWNLOAD_START 0); EvPageClick IMAGE_LINK;
         EvClose; EvError (CRITICAL_ERROR (BrowserError message));
         EvExit 1%Z]) /\
     reported_count (trace (main_catch env (S fuel) dirname url w)) = None).
Proof.
  split.
  - intros fuel dn url w w' t H. apply main_catch_trace in H.
    inversion H as [| | | | |n tl Hl]; subst.
    exists (n + 1). split; [|lia].
    rewrite !reported_count_app. reflexivity.
  - intros fuel dn url w m Hl Hs Hg Hc.
    assert (main_catch env (S fuel) dn url w =
       (Exit 1%Z, closed (called (called (set_up env w))),
        setup_trace (path_join dn DOWNLOAD_DIR) ++
        [EvGoto url; EvLog (DOWNLOAD_START 0); EvPageClick IMAGE_LINK;
         EvClose; EvError (CRITICAL_ERROR (BrowserError m));
         EvExit 1%Z])) as E.
    { unfold main_catch, try_catch.
      rewrite (main_set_up env (S fuel) dn url w Hl Hs). cbv zeta.
      rewrite main_try_unfold, Hg, gallery_loop_step. cbv zeta.
      cbn [called ncall]. cbn [ncall] in Hc. rewrite Hc. reflexivity. }
    rewrite E. split; reflexivity.
Qed.

(** C6.  When the run starts with no browser session and a download
    directory that holds files, it reports the precondition failure and
    exits with code 1 after creating (if need be) and listing the
    directory and nothing else: no call into the browser is made, no
    session exists afterwards, and the directory holds what it held. *)
Theorem non_empty_directory_aborts_untouched
    (env : Env) (fuel : nat) (dirname url : string) (w : World) :
  session w = false ->
  dir w <> [] ->
  let d := path_join dirname DOWNLOAD_DIR in
  let r := main_catch env fuel dirname url w in
  outcome r = Exit 1%Z /\
  trace r =
    [EvMkdir d; EvReaddir d;
     EvError (ERROR_MESSAGE (directory_not_empty d (List.length (dir w))));
     EvExit 1%Z] /\
  dir (world r) = dir w /\
  session (world r) = false /\
  ncall (world r) = ncall w.
Proof.
  intros Hs Hd d r. subst d r.
  assert (listing env w = dir w) as El by (unfold listing; now rewrite Hs).
  unfold main_catch, try_catch.
  rewrite main_directory_not_empty by congruence. cbv zeta.
  unfold outcome, trace, world, read. simpl. rewrite El. auto.
Qed.

(** C10.  Two invocations whose [process.argv[2]] agree (both absent, or
    both present and equal) run alike in every world: what follows the
    first positional argument is never read. *)
Theorem extra_arguments_are_ignored
    (env : Env) (url_tail : string -> list ascii -> bool)
    (argv argv' : list string) (dirname : string) (fuel : nat) (w : World) :
  nth_error argv 2 = nth_error argv' 2 ->
  script env url_tail argv dirname fuel w =
  script env url_tail argv' dirname fuel w.
Proof.
  intros H. rewrite !script_cases.
  destruct argv as [|a0 [|a1 [|a2 rest]]], argv' as [|b0 [|b1 [|b2 rest']]];
    cbn [nth_error] in H; try discriminate H;
    cbn [List.length nth Nat.ltb Nat.leb]; try reflexivity.
  injection H as ->. reflexivity.
Qed.

(** ** One download at a time *)
















(** ** URL validation *)









Section Validation.

Variable url_tail : string -> list ascii -> bool.




End Validation.

(** *** What the parser reads of a valid string *)














Section Acceptance.

Variable url_tail : string -> list ascii -> bool.
Variable valid_remainder : string -> list ascii -> bool.




End Acceptance.


(** ** Concrete runs *)

Example endsWith_partial :
  endsWith "a.jpg.crdownload" partial_marker = true /\
  endsWith "a.jpg" partial_marker = false /\
  endsWith "load" partial_marker = false.
Proof. repeat split. Qed.

Example toString_120 : toString 120 = "120" /\ toString 0 = "0".
Proof. split; reflexivity. Qed.

Example watcher_returns_new_file :
  outcome (waitForDownloadCompletion downloading 5 "photos" watching)
    = Ret (file "new.jpg").
Proof. vm_compute. reflexivity. Qed.

Example watcher_times_out :
  waitForDownloadCompletion stalled 5 "photos" watching =
  (Throw download_timed_out, MkWorld [file "a.jpg.crdownload"] true 3 2 6,
   [EvNow; EvReaddir "photos"; EvNow; EvReaddir "photos";
    EvSleep TIMEOUTS.POLL_INTERVAL; EvNow]).
Proof. vm_compute. reflexivity. Qed.

Example three_photos :
  outcome run3 = Ret tt /\ reported_count (trace run3) = Some 3 /\
  confirmations (trace run3) = 3 /\ advances (trace run3) = 2 /\
  map name (dir (world run3)) = ["c.jpg"; "b.jpg"; "a.jpg"].
Proof. vm_compute. repeat split. Qed.

Example first_click_rejected :
  outcome (main_catch unclickable 5 "/home/user/app"
             "https://school.example/gallery-1" fresh) = Exit 1%Z.
Proof. vm_compute. reflexivity. Qed.

Lemma waitForDownloadCompletion_returns_first_new_file_witness :
  exists i, i < 5 /\
    (forall j, j <= i ->
       (elapsed downloading watching j < TIMEOUTS.DOWNLOAD)%Z) /\
    (forall j, j < i ->
       none_qualifying (before_snapshot downloading watching)
                       (poll_snapshot downloading watching j)) /\
    first_qualifying (before_snapshot downloading watching)
                     (poll_snapshot downloading watching i) (file "new.jpg").
Proof.
  apply (proj1 (proj1 (waitForDownloadCompletion_returns_first_new_file
                         downloading 5 "photos" watching (file "new.jpg")))).
  vm_compute. reflexivity.
Defined.

Lemma waitForDownloadCompletion_timeout_witness :
  exists T, T < 5 /\
    (TIMEOUTS.DOWNLOAD <= elapsed stalled watching T)%Z /\
    forall j, j < T ->
      (elapsed stalled watching j < TIMEOUTS.DOWNLOAD)%Z /\
      none_qualifying (before_snapshot stalled watching)
                      (poll_snapshot stalled watching j).
Proof.
  apply (proj1 (proj1 (proj2 (waitForDownloadCompletion_timeout
                                stalled 5 "photos" watching)))).
  vm_compute. reflexivity.
Defined.

Lemma reported_count_is_number_of_downloads_witness :
  let d := path_join "/home/user/app" DOWNLOAD_DIR in
  let files := watcher_returns gallery3 10 d 0 (called (set_up gallery3 fresh)) in
  let n := pagination_advances gallery3 10 d 0 (called (set_up gallery3 fresh)) in
  reported_count (trace run3) = Some (List.length files) /\
  List.length files = n + 1 /\
  confirmed_names (trace run3) = map name files /\
  confirmations (trace run3) = List.length files /\
  advances (trace run3) = n /\
  reported_count (trace run3) = Some (confirmations (trace run3)) /\
  confirmations (trace run3) = advances (trace run3) + 1.
Proof.
  apply (reported_count_is_number_of_downloads gallery3 lenient_tail argv3
           "/home/user/app" 10 fresh (world run3) (trace run3)).
  vm_compute. reflexivity.
Defined.

Example three_photos_history :
  loop_history gallery3 10 photos 0 (called (set_up gallery3 fresh))
    = ([file "a.jpg"; file "b.jpg"; file "c.jpg"], 2).
Proof. vm_compute. reflexivity. Qed.

Lemma pagination_failure_is_end_of_gallery_witness :
  outcome run3 = Ret tt /\ exit_code (outcome run3) = Some 0%Z /\
  exists pre n,
    trace run3 = pre ++ [EvLog END_OF_ALBUM; EvLog (COMPLETION n); EvClose].
Proof.
  apply (proj2 (proj2 (proj2 (pagination_failure_is_end_of_gallery gallery3)))
           lenient_tail argv3 "/home/user/app" 10 fresh
           (outcome run3) (world run3) (trace run3)).
  - vm_compute. reflexivity.
  - vm_compute. repeat (first [left; reflexivity | right]).
Defined.

Lemma download_timeout_aborts_run_witness :
  main_catch stalled_second 5 "/home/user/app"
    "https://school.example/gallery-1" fresh =
    (Exit 1%Z, closed timed_out,
     setup_trace (path_join "/home/user/app" DOWNLOAD_DIR) ++
     [EvGoto "https://school.example/gallery-1"] ++ first_iteration_trace ++
     iteration_start 1 ++ timed_out_trace ++
     [EvClose; EvError (CRITICAL_ERROR download_timed_out); EvExit 1%Z]) /\
  session (closed timed_out) = false /\
  exit_code
    (outcome (main_catch stalled_second 5 "/home/user/app"
                "https://school.example/gallery-1" fresh)) = Some 1%Z /\
  watcher_trace timed_out_trace.
Proof.
  apply (download_timeout_aborts_run stalled_second 5 "/home/user/app"
           "https://school.example/gallery-1" fresh 3 1 second_iteration
           timed_out first_iteration_trace timed_out_trace).
  - reflexivity.
  - repeat split.
  - reflexivity.
  - apply (RI_advance stalled_second photos 4 0
             (called (set_up stalled_second fresh)) (file "a.jpg")
             first_downloaded
             [EvNow; EvReaddir photos; EvNow; EvReaddir photos]
             second_iteration
             [EvLog (CURRENT_URL "https://school.example/gallery-1");
              EvWaitForSelector NEXT_BUTTON TIMEOUTS.ELEMENT_VISIBLE;
              EvLog (NAVIGATION_PROGRESS 1); EvHandleClick;
              EvWaitForSelector IMAGE_LINK TIMEOUTS.ELEMENT_VISIBLE;
              EvSleep TIMEOUTS.ANIMATION]
             4 1 second_iteration []).
    + reflexivity.
    + vm_compute. reflexivity.
    + vm_compute. reflexivity.
    + apply RI_here.
  - reflexivity.
  - vm_compute. reflexivity.
Defined.

Lemma non_empty_directory_aborts_untouched_witness :
  let d := path_join "/home/user/app" DOWNLOAD_DIR in
  let r := main_catch gallery3 10 "/home/user/app"
             "https://school.example/gallery-1" leftover in
  outcome r = Exit 1%Z /\
  trace r =
    [EvMkdir d; EvReaddir d;
     EvError (ERROR_MESSAGE (directory_not_empty d 1)); EvExit 1%Z] /\
  dir (world r) = [file "old.jpg"] /\
  session (world r) = false /\
  ncall (world r) = 0.
Proof.
  apply (non_empty_directory_aborts_untouched gallery3 10 "/home/user/app"
           "https://school.example/gallery-1" leftover).
  - reflexivity.
  - discriminate.
Defined.


Example valid_absolute_URL_strings :
  let valid := absolute_URL_string special_URL_remainder in
  valid "https://school.example/gallery-1" = true /\
  valid "HTTP://www.school.example:8080/a/b%20c?page=2#top" = true /\
  valid "https://school.example" = true /\
  valid "https://school.example:65536/" = false /\
  valid "https://school.example/a b" = false /\
  valid "https:/school.example/" = false /\
  valid "https://192.168.0.1/" = false /\
  valid "/gallery-1" = false.
Proof. vm_compute. repeat split. Qed.



Example second_click_follows_first_download :
  nth_error (trace loop3) 14 = Some (EvPageClick IMAGE_LINK) /\
  confirmed_names (firstn 14 (trace loop3)) = ["a.jpg"] /\
  nth_error (trace loop3) 16 = Some (EvReaddir "photos").
Proof. vm_compute. repeat split. Qed.


Lemma normal_run_reports_at_least_one_photo_witness :
  exists n, reported_count (trace run3) = Some n /\ 1 <= n.
Proof.
  apply (proj1 (normal_run_reports_at_least_one_photo gallery3) 10
           "/home/user/app" "https://school.example/gallery-1" fresh
           (world run3)).
  vm_compute. reflexivity.
Defined.

Lemma extra_arguments_are_ignored_witness :
  script gallery3 lenient_tail argv3 "/home/user/app" 10 fresh =
  script gallery3 lenient_tail (argv3 ++ ["--verbose"; "second"])
    "/home/user/app" 10 fresh.
Proof.
  apply (extra_arguments_are_ignored gallery3 lenient_tail argv3
           (argv3 ++ ["--verbose"; "second"])).
  reflexivity.
Defined.


(** * More properties *)

(** ** What the watcher does to the outside *)

Lemma poll_effects env fuel d start before : forall w o w' t,
  poll env fuel d start before w = (o, w', t) ->
  (forall e, In e t ->
     e = EvNow \/ e = EvReaddir d \/ e = EvSleep TIMEOUTS.POLL_INTERVAL) /\
  nclock w' = nclock w + count is_now t /\
  nreaddir w' = nreaddir w + count is_readdir t /\
  (forall f, o = Ret f ->
     count is_readdir t = count is_sleep t + 1 /\
     count is_now t = count is_readdir t) /\
  (forall e, o = Throw e ->
     count is_readdir t = count is_sleep t /\
     count is_now t = count is_readdir t + 1).
Proof.
  induction fuel as [|fuel IH]; intros w o w' t.
  - simpl. intros [= <- <- <-]. unfold count. simpl.
    split; [intros e []|]. repeat split; discriminate || lia.
  - rewrite poll_step. destruct (_ <? _)%Z.
    + destruct (completed _ _).
      * intros [= <- <- <-]. unfold count. simpl.
        split; [intros e [<-|[<-|[]]]; auto|].
        repeat split; discriminate || lia.
      * destruct (poll env fuel d start before (polled env w))
          as [[o1 w1] t1] eqn:E.
        intros [= <- <- <-].
        destruct (IH _ _ _ _ E) as (He & Hc & Hr & Hf & Ht).
        simpl in Hc, Hr.
        change ([EvNow; EvReaddir d; EvSleep TIMEOUTS.POLL_INTERVAL] ++ t1)
          with (EvNow :: EvReaddir d :: EvSleep TIMEOUTS.POLL_INTERVAL :: t1).
        unfold count in *. simpl.
        split; [intros e [<-|[<-|[<-|Hin]]]; auto|].
        split; [lia|]. split; [lia|]. split.
        -- intros f Hf'. destruct (Hf f Hf'). lia.
        -- intros e He'. destruct (Ht e He'). lia.
    + intros [= <- <- <-]. unfold count. simpl.
      split; [intros e [<-|[]]; auto|].
      repeat split; discriminate || lia.
Qed.

(** X5.  A call of [waitForDownloadCompletion] makes no call into the
    browser and leaves the session as it is; all it does is read the
    clock, list the watched directory and sleep for the poll interval.
    When it returns a file it has listed the directory twice more than it
    has slept (no sleep before the first check, none after the last);
    when it times out, once more, and it has read the clock once more
    than it has listed the directory. *)
Theorem watcher_only_reads
    (env : Env) (fuel : nat) (d : string) (w w' : World)
    (o : Outcome Filename) (t : list Event) :
  waitForDownloadCompletion env fuel d w = (o, w', t) ->
  ncall w' = ncall w /\ session w' = session w /\
  (forall e, In e t ->
     e = EvNow \/ e = EvReaddir d \/ e = EvSleep TIMEOUTS.POLL_INTERVAL) /\
  nclock w' = nclock w + count is_now t /\
  nreaddir w' = nreaddir w + count is_readdir t /\
  (forall f, o = Ret f ->
     count is_readdir t = count is_sleep t + 2 /\
     count is_now t = count is_readdir t) /\
  (forall e, o = Throw e ->
     count is_readdir t = count is_sleep t + 1 /\
     count is_now t = count is_readdir t + 1).
Proof.
  intros H.
  destruct (waitForDownloadCompletion_trace _ _ _ _ _ _ _ H)
    as (_ & Hs & Hc & _).
  rewrite waitForDownloadCompletion_unfold in H.
  destruct (poll env fuel d _ _ _) as [[o1 w1] t1] eqn:E.
  injection H as <- <- <-.
  destruct (poll_effects _ _ _ _ _ _ _ _ _ E) as (He & Hk & Hr & Hf & Ht).
  simpl in Hk, Hr.
  change ([EvNow; EvReaddir d] ++ t1) with (EvNow :: EvReaddir d :: t1).
  unfold count in *. simpl.
  split; [exact Hc|]. split; [exact Hs|].
  split; [intros e [<-|[<-|Hin]]; auto|].
  split; [lia|]. split; [lia|]. split.
  - intros f Hf'. destruct (Hf f Hf'). lia.
  - intros e He'. destruct (Ht e He'). lia.
Qed.

(** ** The watcher ends *)

(** Once a clock reading at or past the deadline lies [n] passes ahead,
    the loop sleeps at most [n] times and, given fuel for more than [n]
    passes, ends. *)
Lemma poll_sleeps_bound env fuel d start before : forall w n o w' t,
  (TIMEOUTS.DOWNLOAD <= env_now env (nclock w + n) - start)%Z ->
  poll env fuel d start before w = (o, w', t) ->
  count is_sleep t <= n /\ (n < fuel -> o <> OutOfFuel).
Proof.
  induction fuel as [|fuel IH]; intros w n o w' t Hd.
  - simpl. intros [= <- <- <-]. unfold count. simpl. split; lia.
  - rewrite poll_step.
    destruct (Z.ltb_spec (env_now env (nclock w) - start) TIMEOUTS.DOWNLOAD)
      as [Hlt|Hge].
    + destruct n as [|n]; [rewrite Nat.add_0_r in Hd; lia|].
      destruct (completed _ _).
      * intros [= <- <- <-]. unfold count. simpl.
        split; [lia|discriminate].
      * destruct (poll env fuel d start before (polled env w))
          as [[o1 w1] t1] eqn:E.
        intros [= <- <- <-].
        assert (TIMEOUTS.DOWNLOAD
                  <= env_now env (nclock (polled env w) + n) - start)%Z as Hd'.
        { simpl. now replace (S (nclock w + n)) with (nclock w + S n) by lia. }
        destruct (IH (polled env w) n o1 w1 t1 Hd' E) as (Hs & Ho).
        change ([EvNow; EvReaddir d; EvSleep TIMEOUTS.POLL_INTERVAL] ++ t1)
          with (EvNow :: EvReaddir d :: EvSleep TIMEOUTS.POLL_INTERVAL :: t1).
        unfold count in *. simpl. split; [lia|].
        intros Hn. apply Ho. lia.
    + intros [= <- <- <-]. unfold count. simpl. split; [lia|discriminate].
Qed.

Lemma ticking_elapsed env w :
  ticking env w ->
  forall i, (TIMEOUTS.POLL_INTERVAL * Z.of_nat i <= elapsed env w i)%Z.
Proof.
  intros (H0 & Hs). induction i as [|i IH].
  - simpl. lia.
  - specialize (Hs i). unfold TIMEOUTS.POLL_INTERVAL in *. lia.
Qed.

(** X6.  Under a clock that advances by at least the poll interval from
    one pass to the next, [waitForDownloadCompletion] sleeps at most 60
    times (30000 / 500) and, given fuel for 61 passes, ends: with a file
    name or with the time-out error. *)
Theorem watcher_ends_when_clock_ticks
    (env : Env) (fuel : nat) (d : string) (w w' : World)
    (o : Outcome Filename) (t : list Event) :
  ticking env w ->
  waitForDownloadCompletion env fuel d w = (o, w', t) ->
  count is_sleep t <= 60 /\
  (61 <= fuel ->
   (exists f, o = Ret f) \/ o = Throw download_timed_out).
Proof.
  intros Ht H.
  destruct (waitForDownloadCompletion_trace _ _ _ _ _ _ _ H)
    as (_ & _ & _ & He & Hx).
  rewrite waitForDownloadCompletion_unfold in H.
  destruct (poll env fuel d _ _ _) as [[o1 w1] t1] eqn:E.
  injection H as <- <- <-.
  pose proof (ticking_elapsed env w Ht 60) as H60.
  assert (TIMEOUTS.DOWNLOAD
            <= env_now env (nclock (polled env w) + 60) - start_time env w)%Z
    as Hd.
  { unfold elapsed in H60. simpl.
    replace (S (nclock w + 60)) with (nclock w + 61) by lia.
    unfold TIMEOUTS.POLL_INTERVAL, TIMEOUTS.DOWNLOAD in *. simpl in H60. lia. }
  destruct (poll_sleeps_bound env fuel d _ _ (polled env w) 60 o1 w1 t1 Hd E)
    as (Hs & Ho).
  change ([EvNow; EvReaddir d] ++ t1) with (EvNow :: EvReaddir d :: t1).
  unfold count in *. simpl. split; [exact Hs|].
  intros Hf. destruct o1 as [f|e|c|].
  - left. now exists f.
  - right. now destruct (He e eq_refl) as (-> & _).
  - now destruct (Hx c).
  - destruct Ho; [lia|reflexivity].
Qed.

(** ** When the pagination step advances *)

(** X7.  [handleNextButton] returns [true] exactly when the next control
    is found, the click on it resolves and the wait for the image link is
    not rejected (a [null] from that wait counts as found); it applies the
    settle delay exactly then, clicks the control exactly when it is
    found, and makes one to three calls into the browser. *)
Theorem handleNextButton_advances_iff
    (env : Env) (photoCount : nat) (w : World) :
  let r := handleNextButton env photoCount w in
  (outcome r = Ret true <->
   env_wait env (ncall w) = Handle /\
   env_call env (S (ncall w)) = None /\
   forall m, env_wait env (S (S (ncall w))) <> Rejected m) /\
  (outcome r = Ret true <-> In (EvSleep TIMEOUTS.ANIMATION) (trace r)) /\
  (In EvHandleClick (trace r) <-> env_wait env (ncall w) = Handle) /\
  (In (EvLog END_OF_ALBUM) (trace r) <-> pagination_raises env w) /\
  ncall w < ncall (world r) <= ncall w + 3.
Proof.
  cbv zeta. rewrite handleNextButton_cases. cbv zeta.
  unfold pagination_raises, outcome, trace, world, called3, called.
  destruct (env_wait env (ncall w)) as [| |m0] eqn:E0; simpl.
  - destruct (env_call env (S (ncall w))) as [m1|] eqn:E1; simpl.
    + repeat split; try discriminate; try lia; try tauto.
      * intros (_ & D & _). discriminate.
      * intros H. repeat destruct H as [H|H]; discriminate || contradiction.
      * intros _. right. left. split; [reflexivity|]. now exists m1.
    + destruct (env_wait env (S (S (ncall w)))) as [| |m2] eqn:E2; simpl.
      * repeat split; try discriminate; try lia; try tauto.
        -- intros H. repeat destruct H as [H|H];
             discriminate || contradiction.
        -- intros [(m & D)|[(_ & m & D)|(_ & _ & m & D)]]; discriminate.
      * repeat split; try discriminate; try lia; try tauto.
        -- intros H. repeat destruct H as [H|H];
             discriminate || contradiction.
        -- intros [(m & D)|[(_ & m & D)|(_ & _ & m & D)]]; discriminate.
      * repeat split; try discriminate; try lia; try tauto.
        -- intros (_ & _ & D). now destruct (D m2).
        -- intros H. repeat destruct H as [H|H];
             discriminate || contradiction.
        -- intros _. right. right. repeat split. now exists m2.
  - repeat split; try discriminate; try lia; try tauto.
    + intros (D & _). discriminate.
    + intros H. repeat destruct H as [H|H]; discriminate || contradiction.
    + intros H. repeat destruct H as [H|H]; discriminate || contradiction.
    + intros H. repeat destruct H as [H|H]; discriminate || contradiction.
    + intros [(m & D)|[(D & _)|(D & _)]]; discriminate.
  - repeat split; try discriminate; try lia; try tauto.
    + intros (D & _). discriminate.
    + intros H. repeat destruct H as [H|H]; discriminate || contradiction.
    + intros H. repeat destruct H as [H|H]; discriminate || contradiction.
    + intros _. left. now exists m0.
Qed.

(** ** What the loop prints and does *)

Lemma watcher_loop_events tw :
  watcher_trace tw -> Forall (fun e => is_loop_event e = true) tw.
Proof.
  unfold watcher_trace. apply Forall_impl.
  intros e. destruct e; try discriminate; reflexivity.
Qed.

Lemma pagination_loop_events photoCount hasNext tn :
  pagination_trace photoCount hasNext tn ->
  Forall (fun e => is_loop_event e = true) tn.
Proof. destruct 1; repeat constructor. Qed.

Lemma loop_events photoCount o t :
  loop_trace photoCount o t -> Forall (fun e => is_loop_event e = true) t.
Proof.
  induction 1 as [pc|pc m|pc tw Hw|pc tw Hw|pc tw f tn Hw Hp
                  |pc tw f tn o t Hw Hp Hl IH];
    repeat (apply Forall_app; split);
    try (now apply watcher_loop_events);
    try (now apply (pagination_loop_events _ _ _ Hp));
    try assumption; repeat constructor.
Qed.

Lemma loop_event_absent photoCount o t e :
  loop_trace photoCount o t -> is_loop_event e = false -> ~ In e t.
Proof.
  intros Hl He Hin. apply loop_events in Hl.
  rewrite Forall_forall in Hl. specialize (Hl e Hin). congruence.
Qed.

Lemma start_numbers_app t1 t2 :
  start_numbers (t1 ++ t2) = start_numbers t1 ++ start_numbers t2.
Proof. apply flat_map_app. Qed.

Lemma progress_numbers_app t1 t2 :
  progress_numbers (t1 ++ t2) = progress_numbers t1 ++ progress_numbers t2.
Proof. apply flat_map_app. Qed.

Lemma watcher_numbers tw :
  watcher_trace tw -> start_numbers tw = [] /\ progress_numbers tw = [].
Proof.
  induction 1 as [|e tw He _ IH]; [now split|].
  destruct IH as (I1 & I2).
  destruct e; try discriminate; simpl; auto.
Qed.

Lemma pagination_numbers photoCount hasNext tn :
  pagination_trace photoCount hasNext tn ->
  start_numbers tn = [] /\
  (hasNext = true -> progress_numbers tn = [photoCount]).
Proof. destruct 1; split; try reflexivity; discriminate. Qed.

(** The numbers printed by the iterations that advance. *)
Lemma loop_numbers photoCount o t :
  loop_trace photoCount o t ->
  start_numbers t = seq photoCount (download_clicks t) /\
  exists tail,
    progress_numbers t = seq (photoCount + 1) (advances t) ++ tail /\
    List.length tail <= 1 /\
    (forall n, o = Ret n -> n + 1 = photoCount + download_clicks t).
Proof.
  unfold download_clicks, advances.
  induction 1 as [pc|pc m|pc tw Hw|pc tw Hw|pc tw f tn Hw Hp
                  |pc tw f tn o t Hw Hp Hl IH].
  - split; [reflexivity|]. exists []. repeat split; auto. discriminate.
  - split; [reflexivity|]. exists []. repeat split; auto. discriminate.
  - destruct (watcher_numbers _ Hw) as (S1 & P1).
    destruct (watcher_counts _ Hw) as (_ & A1 & C1).
    unfold advances, download_clicks in *.
    rewrite start_numbers_app, progress_numbers_app, !count_app, S1, P1, A1, C1.
    split; [reflexivity|]. exists []. repeat split; auto. discriminate.
  - destruct (watcher_numbers _ Hw) as (S1 & P1).
    destruct (watcher_counts _ Hw) as (_ & A1 & C1).
    unfold advances, download_clicks in *.
    rewrite !start_numbers_app, !progress_numbers_app, !count_app.
    rewrite S1, P1, A1, C1.
    split; [reflexivity|]. exists []. repeat split; auto. discriminate.
  - destruct (watcher_numbers _ Hw) as (S1 & P1).
    destruct (watcher_counts _ Hw) as (_ & A1 & C1).
    destruct (pagination_numbers _ _ _ Hp) as (S2 & _).
    destruct (pagination_counts _ _ _ Hp) as (_ & C2 & A2).
    unfold advances, download_clicks in *.
    rewrite !start_numbers_app, !progress_numbers_app, !count_app.
    rewrite S1, P1, A1, C1, S2, A2, C2.
    split; [reflexivity|]. exists (progress_numbers tn). simpl.
    repeat split.
    + inversion Hp; simpl; lia.
    + intros n [= <-]. unfold count. simpl. lia.
  - destruct IH as (IS & tail & IP & Ht & In').
    destruct (watcher_numbers _ Hw) as (S1 & P1).
    destruct (watcher_counts _ Hw) as (_ & A1 & C1).
    destruct (pagination_numbers _ _ _ Hp) as (S2 & P2).
    destruct (pagination_counts _ _ _ Hp) as (_ & C2 & A2).
    unfold advances, download_clicks in *.
    rewrite !start_numbers_app, !progress_numbers_app, !count_app.
    rewrite S1, P1, A1, C1, S2, A2, C2, (P2 eq_refl), IS, IP.
    rewrite !Nat.add_1_r. simpl.
    split; [reflexivity|]. exists tail.
    split; [reflexivity|]. split; [exact Ht|].
    intros n Hn. specialize (In' n Hn). unfold count in *. simpl in *. lia.
Qed.

(** X8.  In every execution of the traversal loop started at counter
    [photoCount], the download-start messages are numbered [photoCount],
    [photoCount + 1], ... one per image-link click (so the first photo of
    a run is announced as photo 0), and the navigation-progress messages
    are numbered [photoCount + 1], [photoCount + 2], ... one per advance,
    followed by at most one more (a next control found on which the step
    then fails); the value the loop ends with is the number of the last
    download-start message. *)
Theorem messages_are_numbered_in_order
    (env : Env) (fuel : nat) (d : string) (photoCount : nat)
    (w w' : World) (o : Outcome nat) (t : list Event) :
  gallery_loop env fuel d photoCount w = (o, w', t) ->
  start_numbers t = seq photoCount (download_clicks t) /\
  (exists tail,
     progress_numbers t = seq (photoCount + 1) (advances t) ++ tail /\
     List.length tail <= 1) /\
  (forall n, o = Ret n -> n + 1 = photoCount + download_clicks t).
Proof.
  intros H. apply gallery_loop_trace in H. destruct H as (Hl & _).
  destruct (loop_numbers _ _ _ Hl) as (Hs & tail & Hp & Ht & Hn).
  split; [exact Hs|]. split; [|exact Hn]. now exists tail.
Qed.

(** ** How a run ends *)

Lemma reported_count_none t :
  (forall n, ~ In (EvLog (COMPLETION n)) t) -> reported_count t = None.
Proof.
  induction t as [|e t IH]; intros H; [reflexivity|].
  simpl. rewrite IH by (intros n Hn; apply (H n); now right).
  destruct e as [| | | | | | | | | | | | |m| |]; try reflexivity.
  destruct m; try reflexivity.
  destruct (H count0). now left.
Qed.

Lemma loop_reports_nothing photoCount o t :
  loop_trace photoCount o t -> reported_count t = None.
Proof.
  intros H. apply reported_count_none. intros n.
  now apply (loop_event_absent _ _ _ _ H).
Qed.

(** X4.  A run of the script ends in one of two ways: normally (exit code
    0) or through [process.exit(1)]; no exception is left unhandled.  It
    ends normally exactly when the completion message is printed, and
    through [process.exit(1)] exactly when its trace holds the exit event,
    which is then the last event of the trace. *)
Theorem script_exit_codes
    (env : Env) (url_tail : string -> list ascii -> bool)
    (argv : list string) (dirname : string) (fuel : nat)
    (w w' : World) (o : Outcome unit) (t : list Event) :
  script env url_tail argv dirname fuel w = (o, w', t) ->
  (o = Ret tt \/ o = Exit 1%Z \/ o = OutOfFuel) /\
  (o = Ret tt <-> reported_count t <> None) /\
  (o = Exit 1%Z <-> In (EvExit 1%Z) t) /\
  (o = Exit 1%Z -> exists pre, t = pre ++ [EvExit 1%Z]).
Proof.
  intros H. apply script_trace in H.
  destruct H as [(-> & [-> | ->])|H].
  { repeat split; auto; try discriminate.
    - intros D. now destruct D.
    - intros _. simpl. tauto.
    - now exists [EvError MISSING_ARGUMENT; EvLog (USAGE 0); EvLog (USAGE 1);
                  EvLog (USAGE 2)]. }
  { repeat split; auto; try discriminate.
    - intros D. now destruct D.
    - intros _. simpl. tauto.
    - now exists [EvError INVALID_URL; EvLog (COMMON_ISSUES 0);
                  EvLog (COMMON_ISSUES 1); EvLog (COMMON_ISSUES 2);
                  EvLog (COMMON_ISSUES 3)]. }
  inversion H as [n Hn|m t0 Ht|m|e tl Hl|tl Hl|n tl Hl]; subst.
  - repeat split; auto; try discriminate.
    + intros D. now destruct D.
    + intros _. simpl. tauto.
    + now exists [EvMkdir (path_join dirname DOWNLOAD_DIR);
                  EvReaddir (path_join dirname DOWNLOAD_DIR);
                  EvError (ERROR_MESSAGE
                    (directory_not_empty (path_join dirname DOWNLOAD_DIR) n))].
  - repeat split; auto; try discriminate.
    + intros D. exfalso. apply D. rewrite reported_count_app. simpl.
      apply reported_count_none. intros n Hn. apply Ht in Hn.
      simpl in Hn. repeat destruct Hn as [Hn|Hn];
        discriminate || contradiction.
    + intros _. rewrite !in_app_iff. simpl. tauto.
    + now exists (t0 ++ [EvError (CRITICAL_ERROR (BrowserError m))]);
        rewrite <- app_assoc.
  - repeat split; auto; try discriminate.
    + intros D. exfalso. apply D. reflexivity.
    + intros _. rewrite !in_app_iff. simpl. tauto.
    + exists (setup_trace (path_join dirname DOWNLOAD_DIR) ++
              [EvGoto (nth 2 argv ""); EvClose;
               EvError (CRITICAL_ERROR (BrowserError m))]).
      now rewrite <- app_assoc.
  - repeat split; auto; try discriminate.
    + intros D. exfalso. apply D.
      rewrite !reported_count_app. simpl.
      now rewrite (loop_reports_nothing _ _ _ Hl).
    + intros _. rewrite !in_app_iff. simpl. tauto.
    + exists (setup_trace (path_join dirname DOWNLOAD_DIR) ++
              [EvGoto (nth 2 argv "")] ++ tl ++
              [EvClose; EvError (CRITICAL_ERROR e)]).
      now rewrite <- !app_assoc.
  - repeat split; auto; try discriminate.
    + intros D. exfalso. apply D.
      rewrite !reported_count_app. simpl.
      now rewrite (loop_reports_nothing _ _ _ Hl).
    + intros Hin.
      pose proof (loop_event_absent _ _ _ (EvExit 1%Z) Hl eq_refl) as Ha.
      rewrite !in_app_iff in Hin. simpl in Hin.
      intuition discriminate.
  - repeat split; auto; try discriminate.
    + intros _. rewrite !reported_count_app. simpl. discriminate.
    + intros Hin.
      pose proof (loop_event_absent _ _ _ (EvExit 1%Z) Hl eq_refl) as Ha.
      rewrite !in_app_iff in Hin. simpl in Hin.
      intuition discriminate.
Qed.

(** ** The browser session *)

Lemma main_catch_set_up env fuel dirname url w :
  listing env w = [] -> setup_resolves env w ->
  main_catch env fuel dirname url w =
  let d := path_join dirname DOWNLOAD_DIR in
  match main_try env fuel url d (set_up env w) with
  | (Ret a, w1, t1) => (Ret a, closed w1, setup_trace d ++ t1 ++ [EvClose])
  | (Throw e, w1, t1) =>
      (Exit 1%Z, closed w1,
       setup_trace d ++ t1 ++
       [EvClose; EvError (CRITICAL_ERROR e); EvExit 1%Z])
  | (Exit c, w1, t1) => (Exit c, w1, setup_trace d ++ t1)
  | (OutOfFuel, w1, t1) => (OutOfFuel, w1, setup_trace d ++ t1)
  end.
Proof.
  intros Hl Hs. unfold main_catch, try_catch.
  rewrite (main_set_up env fuel dirname url w Hl Hs). cbv zeta.
  destruct (main_try env fuel url _ _) as [[[a|e|c|] w1] t1]; try reflexivity.
  unfold bind, console_error, process_exit, emit. cbn [app].
  f_equal. repeat (rewrite <- app_assoc; cbn [app]). reflexivity.
Qed.

(** The [try] block navigates, then runs the loop, then prints the
    completion message. *)
Lemma main_try_events env fuel url d w o w1 t1 :
  main_try env fuel url d w = (o, w1, t1) ->
  exists tl,
    Forall (fun e => is_loop_event e = true) tl /\
    (t1 = [EvGoto url] ++ tl \/
     exists n, t1 = [EvGoto url] ++ tl ++ [EvLog (COMPLETION n)]) /\
    (forall c, o <> Exit c).
Proof.
  rewrite main_try_unfold.
  destruct (env_call env (ncall w)) as [m|].
  { intros [= <- <- <-]. exists []. repeat split; auto; discriminate. }
  destruct (gallery_loop env fuel d 0 (called w)) as [[ol wl] tl] eqn:E.
  apply gallery_loop_trace in E. destruct E as (Hl & _).
  pose proof (loop_events _ _ _ Hl) as He.
  pose proof (loop_never_exits _ _ _ Hl) as Hx.
  destruct ol as [n|e|c|]; intros [= <- <- <-]; exists tl;
    repeat split; auto; try discriminate.
  - right. now exists (n + 1).
  - now destruct (Hx c).
Qed.

Lemma loop_events_no_close tl :
  Forall (fun e => is_loop_event e = true) tl -> count is_close tl = 0.
Proof.
  unfold count. induction 1 as [|e tl He _ IH]; [reflexivity|].
  destruct e; try discriminate; simpl; exact IH.
Qed.

(** X2.  Once the browser is launched and set up, every way the run ends
    closes it: the final world holds no session, and [browser.close()] is
    called exactly once, as the last call into the browser -- last event
    of a normal run, followed only by the report of the error and the
    exit otherwise. *)
Theorem browser_closed_on_every_exit
    (env : Env) (fuel : nat) (dirname url : string) (w w' : World)
    (o : Outcome unit) (t : list Event) :
  listing env w = [] ->
  setup_resolves env w ->
  main_catch env fuel dirname url w = (o, w', t) ->
  o <> OutOfFuel ->
  session w' = false /\
  count is_close t = 1 /\
  ((o = Ret tt /\ exists pre, t = pre ++ [EvClose]) \/
   (o = Exit 1%Z /\
    exists pre e,
      t = pre ++ [EvClose; EvError (CRITICAL_ERROR e); EvExit 1%Z])).
Proof.
  intros Hl Hs H Ho. rewrite (main_catch_set_up _ _ _ _ _ Hl Hs) in H.
  cbv zeta in H.
  destruct (main_try env fuel url _ _) as [[o1 w1] t1] eqn:E.
  destruct (main_try_events _ _ _ _ _ _ _ _ E) as (tl & He & Ht & Hx).
  apply loop_events_no_close in He.
  assert (count is_close t1 = 0) as Hc.
  { destruct Ht as [-> | (n & ->)]; rewrite !count_app, He; reflexivity. }
  destruct o1 as [[]|e|c|].
  - injection H as <- <- <-. split; [reflexivity|]. split.
    + unfold count in *. simpl. rewrite filter_app, length_app, Hc.
      reflexivity.
    + left. split; [reflexivity|].
      exists (setup_trace (path_join dirname DOWNLOAD_DIR) ++ t1).
      now rewrite <- app_assoc.
  - injection H as <- <- <-. split; [reflexivity|]. split.
    + unfold count in *. simpl. rewrite filter_app, length_app, Hc.
      reflexivity.
    + right. split; [reflexivity|].
      exists (setup_trace (path_join dirname DOWNLOAD_DIR) ++ t1), e.
      now rewrite <- app_assoc.
  - now destruct (Hx c).
  - injection H as <- <- <-. now destruct Ho.
Qed.

(** [main] when the directory is empty and a call of the set-up rejects. *)
Lemma main_setup_rejected_world env fuel dirname url w :
  listing env w = [] -> ~ setup_resolves env w ->
  let d := path_join dirname DOWNLOAD_DIR in
  exists message w1 rest,
    main env fuel dirname url w
      = (Throw (BrowserError message), w1,
         EvMkdir d :: EvReaddir d :: EvLaunch :: rest) /\
    (forall e, In e rest -> In e [EvNewPage; EvCreateCDPSession; EvSend d]) /\
    (env_call env (ncall w) = None -> session w1 = true) /\
    (env_call env (ncall w) <> None -> session w1 = session w).
Proof.
  intros Hl Hn d. subst d.
  unfold main, checkDirectoryEmpty, setupBrowser, configureDownloads,
    try_catch, try_finally, bind, fs_mkdir, emit, fs_readdir, ret,
    puppeteer_launch, browser_newPage, page_createCDPSession, client_send,
    browser_call, browser_close, called.
  cbn. rewrite Hl. cbn.
  destruct (env_call env (ncall w)) as [m|] eqn:H0; cbn.
  { do 3 eexists. split; [reflexivity|].
    split; [intros e []|]. split; [discriminate|reflexivity]. }
  destruct (env_call env (S (ncall w))) as [m|] eqn:H1; cbn.
  { do 3 eexists. split; [reflexivity|].
    split; [simpl; tauto|]. split; [reflexivity|].
    intros D. now destruct D. }
  destruct (env_call env (S (S (ncall w)))) as [m|] eqn:H2; cbn.
  { do 3 eexists. split; [reflexivity|].
    split; [simpl; tauto|]. split; [reflexivity|].
    intros D. now destruct D. }
  destruct (env_call env (S (S (S (ncall w))))) as [m|] eqn:H3; cbn.
  { do 3 eexists. split; [reflexivity|].
    split; [simpl; tauto|]. split; [reflexivity|].
    intros D. now destruct D. }
  destruct Hn. repeat split; assumption.
Qed.

(** X3.  When the browser launches but one of the three set-up calls after
    the launch rejects ([newPage], [createCDPSession], [send]), the run
    ends through [process.exit(1)] with the error reported and without
    [browser.close()]: the session is still open in the final world. *)
Theorem setup_failure_leaves_browser_open
    (env : Env) (fuel : nat) (dirname url : string) (w w' : World)
    (o : Outcome unit) (t : list Event) :
  listing env w = [] ->
  env_call env (ncall w) = None ->
  ~ setup_resolves env w ->
  main_catch env fuel dirname url w = (o, w', t) ->
  o = Exit 1%Z /\ session w' = true /\
  In EvLaunch t /\ ~ In EvClose t /\
  exists pre message,
    t = pre ++ [EvError (CRITICAL_ERROR (BrowserError message)); EvExit 1%Z].
Proof.
  intros Hl H0 Hn H.
  destruct (main_setup_rejected_world env fuel dirname url w Hl Hn)
    as (m & w1 & rest & E & Hr & Hs & _).
  unfold main_catch, try_catch in H. rewrite E in H.
  unfold bind, console_error, process_exit, emit in H. cbn in H.
  injection H as <- <- <-. split; [reflexivity|]. split; [now apply Hs|].
  split; [simpl; tauto|]. split.
  - rewrite !app_comm_cons, in_app_iff. simpl.
    intros [[D|[D|[D|D]]]|[D|[D|[]]]]; try discriminate.
    apply Hr in D. simpl in D.
    repeat destruct D as [D|D]; discriminate || contradiction.
  - exists (EvMkdir (path_join dirname DOWNLOAD_DIR)
            :: EvReaddir (path_join dirname DOWNLOAD_DIR) :: EvLaunch :: rest),
           m.
    reflexivity.
Qed.

(** ** One directory, one address *)

Lemma wait_events env fuel d w o w' t :
  waitForDownloadCompletion env fuel d w = (o, w', t) ->
  forall e, In e t ->
    e = EvNow \/ e = EvReaddir d \/ e = EvSleep TIMEOUTS.POLL_INTERVAL.
Proof.
  rewrite waitForDownloadCompletion_unfold.
  destruct (poll env fuel d _ _ _) as [[o1 w1] t1] eqn:E.
  intros [= <- <- <-].
  destruct (poll_effects _ _ _ _ _ _ _ _ _ E) as (He & _).
  intros e [<-|[<-|Hin]]; auto.
Qed.

Lemma wait_concerns env fuel d w o w' t :
  waitForDownloadCompletion env fuel d w = (o, w', t) ->
  Forall (concerns d) t.
Proof.
  intros H. apply Forall_forall. intros e Hin.
  destruct (wait_events _ _ _ _ _ _ _ H e Hin) as [-> |[-> | ->]];
    simpl; auto.
Qed.

Lemma pagination_concerns d photoCount hasNext tn :
  pagination_trace photoCount hasNext tn -> Forall (concerns d) tn.
Proof. destruct 1; repeat constructor. Qed.

(** Splits a [Forall] over a trace built with [::] and [++]. *)
Ltac forall_trace :=
  repeat first
    [ assumption
    | apply Forall_nil
    | apply Forall_cons; [simpl; auto; fail|]
    | apply Forall_app; split ].

Lemma loop_concerns env d fuel : forall photoCount w o w' t,
  gallery_loop env fuel d photoCount w = (o, w', t) ->
  Forall (concerns d) t.
Proof.
  induction fuel as [|fuel IH]; intros pc w o w' t.
  - simpl. intros [= <- <- <-]. constructor.
  - rewrite gallery_loop_step. cbv zeta.
    destruct (env_call env (ncall w)) as [msg|].
    { intros [= <- <- <-]. forall_trace. }
    destruct (waitForDownloadCompletion env (S fuel) d (called w))
      as [[ow w1] t1] eqn:Ew.
    pose proof (wait_concerns _ _ _ _ _ _ _ Ew) as Hw.
    destruct ow as [f|e|c|];
      try (intros [= <- <- <-]; forall_trace).
    destruct (handleNextButton_total env (pc + 1) w1)
      as (hasNext & w2 & t2 & En & Hp & _).
    rewrite En. apply (pagination_concerns d) in Hp.
    destruct hasNext.
    + destruct (gallery_loop env fuel d (pc + 1) w2) as [[o3 w3] t3] eqn:El.
      apply IH in El. intros [= <- <- <-]. forall_trace.
    + intros [= <- <- <-]. forall_trace.
Qed.

(** X10.  The directory the run creates, checks for emptiness, hands to
    the browser for its downloads and watches is one and the same:
    [path.join(__dirname, 'photos')].  No other path occurs in a run. *)
Theorem one_download_directory
    (env : Env) (url_tail : string -> list ascii -> bool)
    (argv : list string) (dirname : string) (fuel : nat)
    (w w' : World) (o : Outcome unit) (t : list Event) :
  script env url_tail argv dirname fuel w = (o, w', t) ->
  Forall (concerns (path_join dirname DOWNLOAD_DIR)) t.
Proof.
  rewrite script_cases.
  destruct (Nat.ltb (List.length argv) 3).
  { intros [= <- <- <-]. unfold missing_argument_trace. forall_trace. }
  destruct (isValidUrl url_tail (nth 2 argv "")).
  2:{ intros [= <- <- <-]. unfold invalid_url_trace. forall_trace. }
  set (url := nth 2 argv ""). set (d := path_join dirname DOWNLOAD_DIR).
  destruct (listing env w) as [|f0 l0] eqn:El.
  2:{ unfold main_catch, try_catch.
      rewrite main_directory_not_empty by congruence. cbv zeta.
      intros [= <- <- <-]. forall_trace. }
  destruct (setup_resolves_dec env w) as [Hs|Hs].
  2:{ destruct (main_setup_rejected_world env fuel dirname url w El Hs)
        as (m & w1 & rest & E & Hr & _).
      unfold main_catch, try_catch. rewrite E.
      unfold bind, console_error, process_exit, emit. cbn.
      assert (Forall (concerns d) rest) as Hrest.
      { apply Forall_forall. intros e Hin. apply Hr in Hin. fold d in Hin.
        simpl in Hin. destruct Hin as [<-|[<-|[<-|[]]]]; simpl; auto. }
      intros [= <- <- <-]. fold d. forall_trace. }
  rewrite (main_catch_set_up _ _ _ _ _ El Hs). cbv zeta. fold d.
  rewrite main_try_unfold.
  unfold setup_trace.
  destruct (env_call env (ncall (set_up env w))) as [m|].
  { intros [= <- <- <-]. forall_trace. }
  destruct (gallery_loop env fuel d 0 _) as [[ol wl] tl] eqn:E.
  apply loop_concerns in E.
  destruct ol as [n|e|c|]; intros [= <- <- <-]; forall_trace.
Qed.

Lemma count_zero p t : (forall e, In e t -> p e = false) -> count p t = 0.
Proof.
  unfold count. induction t as [|e t IH]; intros H; [reflexivity|].
  simpl. rewrite (H e (or_introl eq_refl)). apply IH.
  intros x Hx. apply H. now right.
Qed.

Lemma loop_no_goto photoCount o t :
  loop_trace photoCount o t -> count is_goto t = 0.
Proof.
  intros Hl. apply count_zero. intros e Hin.
  apply loop_events in Hl. rewrite Forall_forall in Hl.
  specialize (Hl e Hin). destruct e; try reflexivity; discriminate.
Qed.

Lemma count_positive p t e : In e t -> p e = true -> 0 < count p t.
Proof.
  unfold count. induction t as [|x t IH]; [intros []|].
  intros [<-|Hin] He.
  - simpl. rewrite He. simpl. lia.
  - simpl. destruct (p x); simpl; [lia|now apply IH].
Qed.

(** X11.  The only address the browser is sent to is [process.argv[2]],
    and it is sent there at most once. *)
Theorem browser_navigates_to_the_argument
    (env : Env) (url_tail : string -> list ascii -> bool)
    (argv : list string) (dirname : string) (fuel : nat)
    (w w' : World) (o : Outcome unit) (t : list Event) :
  script env url_tail argv dirname fuel w = (o, w', t) ->
  (forall url, In (EvGoto url) t -> url = nth 2 argv "") /\
  count is_goto t <= 1.
Proof.
  intros H. apply script_trace in H.
  assert (forall t0 : list Event,
            count is_goto t0 = 0 -> forall url, ~ In (EvGoto url) t0) as Z.
  { intros t0 Hz url Hin.
    pose proof (count_positive is_goto t0 _ Hin eq_refl). lia. }
  assert (count is_goto (setup_trace (path_join dirname DOWNLOAD_DIR)) = 0)
    as Hset by reflexivity.
  destruct H as [(_ & [-> | ->])|H].
  { split; [intros url Hin; exfalso; revert Hin; now apply Z|].
    unfold count. simpl. lia. }
  { split; [intros url Hin; exfalso; revert Hin; now apply Z|].
    unfold count. simpl. lia. }
  inversion H as [n Hn|m t0 Ht|m|e tl Hl|tl Hl|n tl Hl]; subst.
  - split; [intros url Hin; exfalso; revert Hin; now apply Z|].
    unfold count. simpl. lia.
  - assert (count is_goto
              (t0 ++ [EvError (CRITICAL_ERROR (BrowserError m)); EvExit 1%Z])
            = 0) as Hz.
    { rewrite count_app. rewrite (count_zero is_goto t0); [reflexivity|].
      intros e Hin. apply Ht in Hin. simpl in Hin.
      destruct Hin as [<-|[<-|[<-|[<-|[<-|[<-|[]]]]]]]; reflexivity. }
    split; [intros url Hin; exfalso; revert Hin; now apply Z|]. lia.
  - split; [|rewrite !count_app, Hset; unfold count; simpl; lia].
    intros url Hin. rewrite !in_app_iff in Hin.
    destruct Hin as [Hin|[Hin|Hin]].
    + now destruct (Z _ Hset url).
    + destruct Hin as [Hin|[]]. now injection Hin.
    + simpl in Hin.
      repeat destruct Hin as [Hin|Hin]; discriminate || contradiction.
  - pose proof (loop_no_goto _ _ _ Hl) as L.
    split; [|rewrite !count_app, Hset, L; unfold count; simpl; lia].
    intros url Hin. rewrite !in_app_iff in Hin.
    destruct Hin as [Hin|[Hin|[Hin|Hin]]].
    + now destruct (Z _ Hset url).
    + destruct Hin as [Hin|[]]. now injection Hin.
    + now destruct (Z _ L url).
    + simpl in Hin.
      repeat destruct Hin as [Hin|Hin]; discriminate || contradiction.
  - pose proof (loop_no_goto _ _ _ Hl) as L.
    split; [|rewrite !count_app, Hset, L; unfold count; simpl; lia].
    intros url Hin. rewrite !in_app_iff in Hin.
    destruct Hin as [Hin|[Hin|Hin]].
    + now destruct (Z _ Hset url).
    + destruct Hin as [Hin|[]]. now injection Hin.
    + now destruct (Z _ L url).
  - pose proof (loop_no_goto _ _ _ Hl) as L.
    split; [|rewrite !count_app, Hset, L; unfold count; simpl; lia].
    intros url Hin. rewrite !in_app_iff in Hin.
    destruct Hin as [Hin|[Hin|[Hin|Hin]]].
    + now destruct (Z _ Hset url).
    + destruct Hin as [Hin|[]]. now injection Hin.
    + now destruct (Z _ L url).
    + simpl in Hin.
      repeat destruct Hin as [Hin|Hin]; discriminate || contradiction.
Qed.

(** ** When the browser is launched *)

(** X1.  The browser is launched exactly when the script is given a URL
    argument that [new URL] accepts and finds the download directory
    empty; the launch then comes right after the creation and the listing
    of the directory.  With a missing or rejected argument, or a directory
    that holds files, no browser is started. *)
Theorem browser_launched_only_after_checks
    (env : Env) (url_tail : string -> list ascii -> bool)
    (argv : list string) (dirname : string) (fuel : nat)
    (w w' : World) (o : Outcome unit) (t : list Event) :
  script env url_tail argv dirname fuel w = (o, w', t) ->
  let d := path_join dirname DOWNLOAD_DIR in
  (In EvLaunch t <->
   3 <= List.length argv /\
   URL_constructor url_tail (nth 2 argv "") = true /\
   listing env w = []) /\
  (In EvLaunch t ->
   exists rest, t = EvMkdir d :: EvReaddir d :: EvLaunch :: rest).
Proof.
  intros H d. rewrite script_cases in H.
  destruct (Nat.ltb_spec (List.length argv) 3) as [Hlen|Hlen].
  { injection H as <- <- <-. split; [split|].
    - intros Hin. simpl in Hin.
      repeat destruct Hin as [Hin|Hin]; discriminate || contradiction.
    - intros (D & _). lia.
    - intros Hin. simpl in Hin.
      repeat destruct Hin as [Hin|Hin]; discriminate || contradiction. }
  unfold isValidUrl in H.
  destruct (URL_constructor url_tail (nth 2 argv "")) eqn:Hu.
  2:{ injection H as <- <- <-. split; [split|].
      - intros Hin. simpl in Hin.
        repeat destruct Hin as [Hin|Hin]; discriminate || contradiction.
      - intros (_ & D & _). discriminate.
      - intros Hin. simpl in Hin.
        repeat destruct Hin as [Hin|Hin]; discriminate || contradiction. }
  destruct (listing env w) as [|f0 l0] eqn:El.
  2:{ unfold main_catch, try_catch in H.
      rewrite main_directory_not_empty in H by congruence. cbv zeta in H.
      injection H as <- <- <-. split; [split|].
      - intros Hin. simpl in Hin.
        repeat destruct Hin as [Hin|Hin]; discriminate || contradiction.
      - intros (_ & _ & D). discriminate.
      - intros Hin. simpl in Hin.
        repeat destruct Hin as [Hin|Hin]; discriminate || contradiction. }
  assert (exists rest, t = EvMkdir d :: EvReaddir d :: EvLaunch :: rest) as P.
  { destruct (setup_resolves_dec env w) as [Hs|Hs].
    - rewrite (main_catch_set_up _ _ _ _ _ El Hs) in H. cbv zeta in H.
      fold d in H.
      destruct (main_try env fuel _ d _) as [[[a|e|c|] w1] t1];
        injection H as <- <- <-; eexists; reflexivity.
    - destruct (main_setup_rejected_world env fuel dirname (nth 2 argv "")
                  w El Hs) as (m & w1 & rest & E & _).
      unfold main_catch, try_catch in H. rewrite E in H.
      unfold bind, console_error, process_exit, emit in H. cbn in H.
      injection H as <- <- <-. eexists. reflexivity. }
  destruct P as (rest & ->). split; [split|].
  - intros _. repeat split. exact Hlen.
  - intros _. simpl. tauto.
  - intros _. now exists rest.
Qed.

(** ** No photo is counted twice *)

Lemma name_injective f g : name f = name g -> f = g.
Proof. destruct f, g. unfold name. simpl. now intros [= -> ->]. Qed.

Lemma persistent_le env lo hi i j f :
  persistent env lo hi -> lo <= i -> i <= j -> j < hi ->
  endsWith (name f) partial_marker = false ->
  In f (env_readdir env i) -> In f (env_readdir env j).
Proof.
  intros Hp Hlo Hle. induction Hle as [|j Hle IH]; [auto|].
  intros Hj Hf Hin.
  apply Hp; [lia|exact Hj|apply IH; auto; lia|exact Hf].
Qed.

Lemma persistent_from env lo lo' hi :
  persistent env lo hi -> lo <= lo' -> persistent env lo' hi.
Proof. intros Hp Hle i f Hi. apply Hp. lia. Qed.

(** Where the loop of the watcher leaves the directory, with a session
    open: at the last listing read, in which a returned file is the first
    qualifying entry. *)
Lemma poll_world env fuel d start before : forall w o w' t,
  session w = true ->
  poll env fuel d start before w = (o, w', t) ->
  nreaddir w <= nreaddir w' /\
  (nreaddir w < nreaddir w' ->
   dir w' = env_readdir env (nreaddir w' - 1)) /\
  (nreaddir w = nreaddir w' -> dir w' = dir w) /\
  (forall f, o = Ret f ->
     nreaddir w < nreaddir w' /\
     first_qualifying before (env_readdir env (nreaddir w' - 1)) f).
Proof.
  induction fuel as [|fuel IH]; intros w o w' t Hs.
  - simpl. intros [= <- <- <-]. repeat split; auto; try lia; discriminate.
  - rewrite poll_step. destruct (_ <? _)%Z.
    + destruct (completed _ _) as [f0|] eqn:Ec.
      * intros [= <- <- <-]. apply completed_some in Ec.
        unfold listing in Ec. rewrite Hs in Ec.
        unfold polled, listing. rewrite Hs. simpl.
        rewrite Nat.sub_0_r. split; [lia|]. split; [reflexivity|].
        split; [lia|]. intros f [= <-]. split; [lia|exact Ec].
      * destruct (poll env fuel d start before (polled env w))
          as [[o1 w1] t1] eqn:E.
        intros [= <- <- <-].
        destruct (IH (polled env w) _ _ _ Hs E) as (H1 & H2 & H3 & H4).
        simpl in H1, H2, H3, H4. split; [lia|]. split; [|split].
        -- intros _. destruct (Nat.eq_dec (S (nreaddir w)) (nreaddir w1))
             as [Heq|Hne].
           ++ rewrite (H3 Heq). unfold listing. rewrite Hs, <- Heq.
              simpl. now rewrite Nat.sub_0_r.
           ++ apply H2. lia.
        -- lia.
        -- intros f Hf. destruct (H4 f Hf) as (H5 & H6).
           split; [lia|exact H6].
    + intros [= <- <- <-]. simpl. repeat split; auto; try lia; discriminate.
Qed.

Lemma wait_world env fuel d w o w' t :
  session w = true ->
  waitForDownloadCompletion env fuel d w = (o, w', t) ->
  nreaddir w < nreaddir w' /\
  dir w' = env_readdir env (nreaddir w' - 1) /\
  (forall f, o = Ret f ->
     S (nreaddir w) < nreaddir w' /\
     In f (env_readdir env (nreaddir w' - 1)) /\
     ~ In f (env_readdir env (nreaddir w)) /\
     endsWith (name f) partial_marker = false).
Proof.
  intros Hs. rewrite waitForDownloadCompletion_unfold.
  destruct (poll env fuel d _ _ _) as [[o1 w1] t1] eqn:E.
  intros [= <- <- <-].
  destruct (poll_world _ _ _ _ _ (polled env w) _ _ _ Hs E)
    as (H1 & H2 & H3 & H4).
  simpl in H1, H2, H3, H4. split; [lia|]. split.
  - destruct (Nat.eq_dec (S (nreaddir w)) (nreaddir w1)) as [Heq|Hne].
    + rewrite (H3 Heq). unfold listing. rewrite Hs, <- Heq.
      simpl. now rewrite Nat.sub_0_r.
    + apply H2. lia.
  - intros f Hf. destruct (H4 f Hf) as (H5 & H6). split; [lia|].
    apply first_qualifying_new in H6. destruct H6 as (Hb & Hm & Ha).
    split; [exact Ha|]. split; [|exact Hm].
    unfold before_snapshot, observed in Hb. rewrite Hs in Hb.
    now rewrite Nat.add_0_r in Hb.
Qed.

Lemma handleNextButton_frame env photoCount w o w' t :
  handleNextButton env photoCount w = (o, w', t) ->
  nreaddir w' = nreaddir w /\ dir w' = dir w /\ session w' = session w.
Proof.
  rewrite handleNextButton_cases. cbv zeta.
  destruct (env_wait env (ncall w)); [|now intros [= <- <- <-]..].
  destruct (env_call env (S (ncall w))); [now intros [= <- <- <-]|].
  destruct (env_wait env (S (S (ncall w)))); now intros [= <- <- <-].
Qed.

Lemma wait_confirms_nothing env fuel d w o w' t :
  waitForDownloadCompletion env fuel d w = (o, w', t) ->
  confirmed_names t = [].
Proof.
  intros H. apply confirmed_names_none. intros e Hin.
  destruct (wait_events _ _ _ _ _ _ _ H e Hin) as [-> |[-> | ->]];
    reflexivity.
Qed.

(** The files the loop confirms: each is finished, was absent from a
    listing the loop read and present in a later one; when no finished
    file leaves the directory they are pairwise distinct.  The loop leaves
    the directory as it found it or as the last listing showed it. *)
Lemma loop_confirms_distinct env d fuel :
  forall photoCount w o w' t,
  session w = true ->
  gallery_loop env fuel d photoCount w = (o, w', t) ->
  persistent env (nreaddir w) (nreaddir w') ->
  ((nreaddir w' = nreaddir w /\ dir w' = dir w) \/
   (nreaddir w < nreaddir w' /\
    dir w' = env_readdir env (nreaddir w' - 1))) /\
  NoDup (confirmed_names t) /\
  forall n, In n (confirmed_names t) ->
    exists f, n = name f /\
      endsWith (name f) partial_marker = false /\
      (exists b, nreaddir w <= b < nreaddir w' /\
                 ~ In f (env_readdir env b)) /\
      (exists j, nreaddir w <= j < nreaddir w' /\
                 In f (env_readdir env j)).
Proof.
  induction fuel as [|fuel IH]; intros pc w o w' t Hs.
  - simpl. intros [= <- <- <-] _.
    split; [left; now split|]. split; [constructor|intros n []].
  - rewrite gallery_loop_step. cbv zeta.
    destruct (env_call env (ncall w)) as [msg|].
    { intros [= <- <- <-] _. simpl.
      split; [left; now split|]. split; [constructor|intros n []]. }
    destruct (waitForDownloadCompletion env (S fuel) d (called w))
      as [[ow w1] t1] eqn:Ew.
    pose proof (wait_confirms_nothing _ _ _ _ _ _ _ Ew) as Hn1.
    destruct (waitForDownloadCompletion_trace _ _ _ _ _ _ _ Ew)
      as (_ & Hs1 & _ & _ & Hx).
    destruct (wait_world env _ _ (called w) _ _ _ Hs Ew) as (W1 & W2 & W3).
    simpl in W1, W3, Hs1.
    assert (forall o0 : Outcome nat,
              (o0, w1, [EvLog (DOWNLOAD_START pc); EvPageClick IMAGE_LINK]
                        ++ t1) = (o, w', t) ->
              ((nreaddir w' = nreaddir w /\ dir w' = dir w) \/
               (nreaddir w < nreaddir w' /\
                dir w' = env_readdir env (nreaddir w' - 1))) /\
              NoDup (confirmed_names t) /\
              forall n, In n (confirmed_names t) ->
                exists f, n = name f /\
                  endsWith (name f) partial_marker = false /\
                  (exists b, nreaddir w <= b < nreaddir w' /\
                             ~ In f (env_readdir env b)) /\
                  (exists j, nreaddir w <= j < nreaddir w' /\
                             In f (env_readdir env j)))
      as Stop.
    { intros o0 [= <- <- <-]. unfold confirmed_names in *. simpl.
      rewrite Hn1.
      split; [right; now split|]. split; [constructor|intros n []]. }
    destruct ow as [f|e|c|]; try (intros E _; exact (Stop _ E)).
    destruct (W3 f eq_refl) as (W4 & W5 & W6 & W7).
    destruct (handleNextButton_total env (pc + 1) w1)
      as (hasNext & w2 & t2 & En & Hpt & _).
    rewrite En.
    destruct (handleNextButton_frame _ _ _ _ _ _ En) as (F1 & F2 & F3).
    pose proof (pagination_confirms_nothing _ _ _ Hpt) as Hn2.
    destruct hasNext.
    + destruct (gallery_loop env fuel d (pc + 1) w2) as [[o3 w3] t3] eqn:El.
      assert (session w2 = true) as Hs2 by congruence.
      intros [= <- <- <-] Hp.
      assert (persistent env (nreaddir w2) (nreaddir w3)) as Hp2
        by (apply (persistent_from env (nreaddir w)); [exact Hp|lia]).
      destruct (IH _ _ _ _ _ Hs2 El Hp2) as (I1 & I3 & I4).
      unfold confirmed_names in *. simpl.
      repeat (rewrite flat_map_app; simpl). rewrite ?Hn1, ?Hn2. simpl.
      assert (nreaddir w2 <= nreaddir w3) as Hle
        by (destruct I1 as [(I1 & _)|(I1 & _)]; lia).
      split.
      { right. destruct I1 as [(I1 & I2)|(I1 & I2)].
        - split; [lia|]. rewrite I2, I1, F2, F1. exact W2.
        - split; [lia|exact I2]. }
      split.
      { constructor; [|exact I3].
        intros Hin.
        destruct (I4 _ Hin) as (f2 & Hname & _ & (b & Hb & Hnb) & _).
        apply name_injective in Hname. subst f2. apply Hnb.
        apply (persistent_le env (nreaddir w) (nreaddir w3)
                 (nreaddir w1 - 1)); auto; lia. }
      intros n [<-|Hin].
      * exists f. split; [reflexivity|]. split; [exact W7|]. split.
        -- exists (nreaddir w). split; [lia|exact W6].
        -- exists (nreaddir w1 - 1). split; [lia|exact W5].
      * destruct (I4 _ Hin)
          as (f2 & E2 & M2 & (b & Hb & Hnb) & (j & Hj & Hinj)).
        exists f2. split; [exact E2|]. split; [exact M2|]. split.
        -- exists b. split; [lia|exact Hnb].
        -- exists j. split; [lia|exact Hinj].
    + intros [= <- <- <-] Hp.
      unfold confirmed_names in *. simpl.
      repeat (rewrite flat_map_app; simpl). rewrite ?Hn1, ?Hn2. simpl.
      split; [right; split; [lia|rewrite F2, F1; exact W2]|]. split.
      * constructor; [intros []|constructor].
      * intros n [<-|[]].
        exists f. split; [reflexivity|]. split; [exact W7|]. split.
        -- exists (nreaddir w). split; [lia|exact W6].
        -- exists (nreaddir w1 - 1). split; [lia|exact W5].
Qed.

Lemma loop_confirms_present env d fuel photoCount w o w' t :
  session w = true ->
  gallery_loop env fuel d photoCount w = (o, w', t) ->
  persistent env (nreaddir w) (nreaddir w') ->
  NoDup (confirmed_names t) /\
  forall n, In n (confirmed_names t) -> In n (map name (dir w')).
Proof.
  intros Hs H Hp.
  destruct (loop_confirms_distinct env d fuel _ _ _ _ _ Hs H Hp)
    as (D & Hn & Hf).
  split; [exact Hn|]. intros n Hin.
  destruct (Hf n Hin) as (f & -> & Hm & (b & Hb & Hnb) & (j & Hj & Hinj)).
  apply in_map. destruct D as [(D1 & _)|(D1 & D2)]; [lia|].
  rewrite D2.
  apply (persistent_le env (nreaddir w) (nreaddir w') j); auto; lia.
Qed.

(** X9.  When no finished file (one whose name does not end in
    .crdownload) leaves the download directory between two of the
    listings the browser session of a run shows, the files the run
    reports as downloaded are pairwise distinct and all present in the
    directory at the end: no photo is counted twice, and the directory
    holds at least as many files as downloads were confirmed.  Partial
    files may appear and be renamed or removed at any time. *)
Theorem counted_photos_are_distinct_files
    (env : Env) (url_tail : string -> list ascii -> bool)
    (argv : list string) (dirname : string) (fuel : nat)
    (w w' : World) (o : Outcome unit) (t : list Event) :
  script env url_tail argv dirname fuel w = (o, w', t) ->
  persistent env (S (nreaddir w)) (nreaddir w') ->
  NoDup (confirmed_names t) /\
  (forall n, In n (confirmed_names t) -> In n (map name (dir w'))) /\
  confirmations t <= List.length (dir w').
Proof.
  intros H Hp.
  assert (NoDup (confirmed_names t) /\
          (forall n, In n (confirmed_names t) -> In n (map name (dir w'))))
    as (Hn & Hi).
  { assert (forall w0 : World,
              NoDup (@nil string) /\
              (forall n, In n (@nil string) -> In n (map name (dir w0))))
      as Nil by (intros w0; split; [constructor|intros n []]).
    rewrite script_cases in H.
    destruct (Nat.ltb (List.length argv) 3).
    { injection H as <- <- <-. apply Nil. }
    destruct (isValidUrl url_tail (nth 2 argv "")).
    2:{ injection H as <- <- <-. apply Nil. }
    destruct (listing env w) as [|f0 l0] eqn:El.
    2:{ unfold main_catch, try_catch in H.
        rewrite main_directory_not_empty in H by congruence. cbv zeta in H.
        injection H as <- <- <-. apply Nil. }
    destruct (setup_resolves_dec env w) as [Hs|Hs].
    2:{ destruct (main_setup_rejected_world env fuel dirname (nth 2 argv "")
                    w El Hs) as (m & w1 & rest & E & Hr & _).
        unfold main_catch, try_catch in H. rewrite E in H.
        unfold bind, console_error, process_exit, emit in H. cbn in H.
        injection H as <- <- <-.
        assert (confirmed_names rest = []) as Hrest.
        { apply confirmed_names_none. intros e Hin. apply Hr in Hin.
          simpl in Hin. destruct Hin as [<-|[<-|[<-|[]]]]; reflexivity. }
        unfold confirmed_names in *. simpl.
        rewrite flat_map_app, Hrest. apply Nil. }
    rewrite (main_catch_set_up _ _ _ _ _ El Hs) in H. cbv zeta in H.
    rewrite main_try_unfold in H.
    destruct (env_call env (ncall (set_up env w))) as [m|].
    { injection H as <- <- <-. apply Nil. }
    destruct (gallery_loop env fuel _ 0 _) as [[ol wl] tl] eqn:E.
    assert (nreaddir w' = nreaddir wl /\ dir w' = dir wl) as (Hr & Hd)
      by (destruct ol; injection H as <- <- <-; now split).
    rewrite Hr in Hp. rewrite Hd.
    apply (loop_confirms_present env _ _ _ (called (set_up env w)) _ _ _
             eq_refl) in E; [|exact Hp].
    unfold confirmed_names in *.
    destruct ol as [n|e|c|]; injection H as <- <- <-; simpl;
      repeat (rewrite flat_map_app; simpl); rewrite ?app_nil_r; exact E. }
  split; [exact Hn|]. split; [exact Hi|].
  rewrite confirmations_length, <- (length_map name (dir w')).
  apply NoDup_incl_length; [exact Hn|exact Hi].
Qed.

(** ** A download that is too fast *)

Lemma In_includes l f : In f l -> includes l f = true.
Proof.
  intros H. unfold includes. apply existsb_exists.
  exists f. split; [exact H|apply String.eqb_refl].
Qed.

(** Among the first [n] passes, either none reads the clock at or past
    the deadline, or there is a first one that does. *)
Lemma first_deadline env w n :
  (forall j, j < n -> (elapsed env w j < TIMEOUTS.DOWNLOAD)%Z) \/
  (exists T0, T0 < n /\
     (TIMEOUTS.DOWNLOAD <= elapsed env w T0)%Z /\
     forall j, j < T0 -> (elapsed env w j < TIMEOUTS.DOWNLOAD)%Z).
Proof.
  induction n as [|n IH].
  - left. intros j Hj. lia.
  - destruct IH as [Hall|(T0 & Hlt & Hd & Hj)].
    + destruct (Z_lt_le_dec (elapsed env w n) TIMEOUTS.DOWNLOAD) as [Hl|Hg].
      * left. intros j Hj.
        destruct (Nat.eq_dec j n) as [->|Hne]; [exact Hl|].
        apply Hall. lia.
      * right. exists n. repeat split; auto.
    + right. exists T0. repeat split; auto.
Qed.

(** X12.  The watcher only sees what appears after its "before" snapshot:
    when every later listing shows nothing but entries of that snapshot
    and partial files -- as when the download had finished before the
    snapshot was taken -- the call returns no file, and throws the
    time-out error as soon as a clock reading reaches the deadline. *)
Theorem watcher_misses_earlier_download
    (env : Env) (fuel : nat) (d : string) (w : World) :
  (forall i g, In g (poll_snapshot env w i) ->
     In g (before_snapshot env w) \/
     endsWith (name g) partial_marker = true) ->
  (forall f, outcome (waitForDownloadCompletion env fuel d w) <> Ret f) /\
  (forall T, T < fuel ->
     (TIMEOUTS.DOWNLOAD <= elapsed env w T)%Z ->
     outcome (waitForDownloadCompletion env fuel d w)
       = Throw download_timed_out).
Proof.
  intros H.
  assert (forall i, none_qualifying (before_snapshot env w)
                      (poll_snapshot env w i)) as N.
  { intros i g Hin. unfold qualifies.
    destruct (H i g Hin) as [Hb|He].
    - now rewrite (In_includes _ _ Hb).
    - rewrite He. now rewrite andb_false_r. }
  rewrite waitForDownloadCompletion_unfold.
  pose proof (fun f => poll_ret env fuel d (start_time env w)
                         (before_snapshot env w) f (polled env w)) as P.
  pose proof (poll_timeout env fuel d (start_time env w)
                (before_snapshot env w) (polled env w)) as Q.
  destruct (poll env fuel d _ _ _) as [[o1 w1] t1] eqn:E.
  unfold outcome in *; simpl in *. split.
  - intros f Hf. apply (P f) in Hf.
    destruct Hf as (i & _ & _ & _ & (l1 & l2 & El & Hq & _)).
    rewrite observed_polled in El.
    assert (In f (poll_snapshot env w i)) as Hin.
    { unfold poll_snapshot. rewrite El. apply in_or_app. right. now left. }
    rewrite (N i f Hin) in Hq. discriminate.
  - intros T HT Hd.
    destruct (first_deadline env w (S T)) as [Hall|(T0 & Hle & Hd0 & Hlt)].
    { specialize (Hall T (Nat.lt_succ_diag_r T)). lia. }
    apply (Q T0); [lia| |].
    + unfold elapsed in Hd0.
      now replace (S (nclock w + T0)) with (nclock w + S T0) by lia.
    + intros j Hj. split.
      * specialize (Hlt j Hj). unfold elapsed in Hlt.
        now replace (S (nclock w + j)) with (nclock w + S j) by lia.
      * rewrite observed_polled. apply N.
Qed.

(** ** Running twice *)

(** A loop that ends with a value leaves the directory as the listing
    that showed the last file. *)
Lemma loop_ret_leaves_file env d fuel : forall photoCount w n w' t,
  session w = true ->
  gallery_loop env fuel d photoCount w = (Ret n, w', t) ->
  dir w' <> [] /\ session w' = true.
Proof.
  induction fuel as [|fuel IH]; intros pc w n w' t Hs.
  - simpl. discriminate.
  - rewrite gallery_loop_step. cbv zeta.
    destruct (env_call env (ncall w)) as [msg|]; [discriminate|].
    destruct (waitForDownloadCompletion env (S fuel) d (called w))
      as [[ow w1] t1] eqn:Ew.
    destruct (wait_world env _ _ (called w) _ _ _ Hs Ew) as (_ & W2 & W3).
    destruct (waitForDownloadCompletion_trace _ _ _ _ _ _ _ Ew)
      as (_ & Hs1 & _).
    simpl in Hs1.
    destruct ow as [f|e|c|]; try discriminate.
    destruct (W3 f eq_refl) as (_ & W5 & _).
    destruct (handleNextButton_total env (pc + 1) w1)
      as (hasNext & w2 & t2 & En & _).
    rewrite En.
    destruct (handleNextButton_frame _ _ _ _ _ _ En) as (_ & F2 & F3).
    destruct hasNext.
    + destruct (gallery_loop env fuel d (pc + 1) w2) as [[o3 w3] t3] eqn:El.
      intros [= -> <- <-]. apply (IH _ _ _ _ _ (eq_trans F3 (eq_trans Hs1 Hs)) El).
    + intros [= <- <- <-]. split; [|congruence].
      rewrite F2, W2. intros D. rewrite D in W5. destruct W5.
Qed.

(** X13.  A run that ends normally leaves at least one file in the
    download directory and no session; whatever the browser would do, a
    second run in the world the first one leaves is rejected at the
    emptiness check: it exits with code 1 without a call into the browser
    and leaves the directory as it is. *)
Theorem second_run_is_rejected
    (env : Env) (url_tail : string -> list ascii -> bool)
    (argv : list string) (dirname : string) (fuel : nat)
    (w w1 : World) (t1 : list Event) :
  script env url_tail argv dirname fuel w = (Ret tt, w1, t1) ->
  dir w1 <> [] /\ session w1 = false /\
  forall env2 fuel2 url2,
    let d := path_join dirname DOWNLOAD_DIR in
    let r := main_catch env2 fuel2 dirname url2 w1 in
    outcome r = Exit 1%Z /\
    trace r =
      [EvMkdir d; EvReaddir d;
       EvError (ERROR_MESSAGE (directory_not_empty d (List.length (dir w1))));
       EvExit 1%Z] /\
    dir (world r) = dir w1 /\ ncall (world r) = ncall w1.
Proof.
  intros H.
  assert (dir w1 <> [] /\ session w1 = false) as (Hd & Hs).
  { rewrite script_cases in H.
    destruct (Nat.ltb (List.length argv) 3); [discriminate|].
    destruct (isValidUrl url_tail (nth 2 argv "")); [|discriminate].
    destruct (listing env w) as [|f0 l0] eqn:El.
    2:{ unfold main_catch, try_catch in H.
        rewrite main_directory_not_empty in H by congruence. discriminate. }
    destruct (setup_resolves_dec env w) as [Hs|Hs].
    2:{ destruct (main_setup_rejected_world env fuel dirname (nth 2 argv "")
                    w El Hs) as (m & w0 & rest & E & _).
        unfold main_catch, try_catch in H. rewrite E in H.
        unfold bind, console_error, process_exit, emit in H. cbn in H.
        discriminate. }
    rewrite (main_catch_set_up _ _ _ _ _ El Hs) in H. cbv zeta in H.
    rewrite main_try_unfold in H.
    destruct (env_call env (ncall (set_up env w))); [discriminate|].
    destruct (gallery_loop env fuel _ 0 _) as [[ol wl] tl] eqn:E.
    destruct ol as [n|e|c|]; try discriminate.
    injection H as <- _.
    destruct (loop_ret_leaves_file env _ _ _ (called (set_up env w)) _ _ _
                eq_refl E) as (L & _).
    split; [exact L|reflexivity]. }
  split; [exact Hd|]. split; [exact Hs|].
  intros env2 fuel2 url2 d r. subst d r.
  assert (listing env2 w1 = dir w1) as El by (unfold listing; now rewrite Hs).
  unfold main_catch, try_catch.
  rewrite main_directory_not_empty by congruence. cbv zeta.
  unfold outcome, trace, world, read. simpl. rewrite El. auto.
Qed.

(** ** Concrete runs, again *)

Lemma watcher_only_reads_witness :
  ncall (world watch_downloading) = ncall watching /\
  session (world watch_downloading) = session watching /\
  (forall e, In e (trace watch_downloading) ->
     e = EvNow \/ e = EvReaddir photos \/
     e = EvSleep TIMEOUTS.POLL_INTERVAL) /\
  nclock (world watch_downloading)
    = nclock watching + count is_now (trace watch_downloading) /\
  nreaddir (world watch_downloading)
    = nreaddir watching + count is_readdir (trace watch_downloading) /\
  (forall f, outcome watch_downloading = Ret f ->
     count is_readdir (trace watch_downloading)
       = count is_sleep (trace watch_downloading) + 2 /\
     count is_now (trace watch_downloading)
       = count is_readdir (trace watch_downloading)) /\
  (forall e, outcome watch_downloading = Throw e ->
     count is_readdir (trace watch_downloading)
       = count is_sleep (trace watch_downloading) + 1 /\
     count is_now (trace watch_downloading)
       = count is_readdir (trace watch_downloading) + 1).
Proof.
  apply (watcher_only_reads downloading 5 photos watching).
  vm_compute. reflexivity.
Defined.

Lemma watcher_ends_when_clock_ticks_witness :
  count is_sleep (trace (waitForDownloadCompletion stalled 61 photos watching))
    <= 60 /\
  (61 <= 61 ->
   (exists f,
      outcome (waitForDownloadCompletion stalled 61 photos watching) = Ret f)
   \/ outcome (waitForDownloadCompletion stalled 61 photos watching)
      = Throw download_timed_out).
Proof.
  apply (watcher_ends_when_clock_ticks stalled 61 photos watching
           (world (waitForDownloadCompletion stalled 61 photos watching))).
  - unfold ticking, elapsed, start_time, TIMEOUTS.POLL_INTERVAL. simpl.
    split; [lia|]. intros i. lia.
  - vm_compute. reflexivity.
Defined.

Lemma messages_are_numbered_in_order_witness :
  start_numbers (trace loop3) = seq 0 (download_clicks (trace loop3)) /\
  (exists tail,
     progress_numbers (trace loop3)
       = seq (0 + 1) (advances (trace loop3)) ++ tail /\
     List.length tail <= 1) /\
  (forall n, outcome loop3 = Ret n ->
             n + 1 = 0 + download_clicks (trace loop3)).
Proof.
  apply (messages_are_numbered_in_order gallery3 10 "photos" 0
           (MkWorld [] true 0 1 5) (world loop3)).
  vm_compute. reflexivity.
Defined.

Lemma script_exit_codes_witness :
  (outcome run3 = Ret tt \/ outcome run3 = Exit 1%Z \/
   outcome run3 = OutOfFuel) /\
  (outcome run3 = Ret tt <-> reported_count (trace run3) <> None) /\
  (outcome run3 = Exit 1%Z <-> In (EvExit 1%Z) (trace run3)) /\
  (outcome run3 = Exit 1%Z -> exists pre, trace run3 = pre ++ [EvExit 1%Z]).
Proof.
  apply (script_exit_codes gallery3 lenient_tail argv3 "/home/user/app" 10
           fresh (world run3)).
  vm_compute. reflexivity.
Defined.

Lemma browser_closed_on_every_exit_witness :
  session (world run3_main) = false /\
  count is_close (trace run3_main) = 1 /\
  ((outcome run3_main = Ret tt /\
    exists pre, trace run3_main = pre ++ [EvClose]) \/
   (outcome run3_main = Exit 1%Z /\
    exists pre e,
      trace run3_main
        = pre ++ [EvClose; EvError (CRITICAL_ERROR e); EvExit 1%Z])).
Proof.
  apply (browser_closed_on_every_exit gallery3 10 "/home/user/app"
           "https://school.example/gallery-1" fresh).
  - reflexivity.
  - repeat split.
  - vm_compute. reflexivity.
  - vm_compute. discriminate.
Defined.

Lemma setup_failure_leaves_browser_open_witness :
  outcome run_no_page = Exit 1%Z /\ session (world run_no_page) = true /\
  In EvLaunch (trace run_no_page) /\ ~ In EvClose (trace run_no_page) /\
  exists pre message,
    trace run_no_page
      = pre ++ [EvError (CRITICAL_ERROR (BrowserError message)); EvExit 1%Z].
Proof.
  apply (setup_failure_leaves_browser_open no_page 5 "/home/user/app"
           "https://school.example/gallery-1" fresh).
  - reflexivity.
  - reflexivity.
  - intros (_ & H & _). vm_compute in H. discriminate.
  - vm_compute. reflexivity.
Defined.

Lemma one_download_directory_witness :
  Forall (concerns (path_join "/home/user/app" DOWNLOAD_DIR)) (trace run3).
Proof.
  apply (one_download_directory gallery3 lenient_tail argv3 "/home/user/app"
           10 fresh (world run3) (outcome run3)).
  vm_compute. reflexivity.
Defined.

Lemma browser_navigates_to_the_argument_witness :
  (forall url, In (EvGoto url) (trace run3) -> url = nth 2 argv3 "") /\
  count is_goto (trace run3) <= 1.
Proof.
  apply (browser_navigates_to_the_argument gallery3 lenient_tail argv3
           "/home/user/app" 10 fresh (world run3) (outcome run3)).
  vm_compute. reflexivity.
Defined.

Lemma browser_launched_only_after_checks_witness :
  let d := path_join "/home/user/app" DOWNLOAD_DIR in
  (In EvLaunch (trace run3) <->
   3 <= List.length argv3 /\
   URL_constructor lenient_tail (nth 2 argv3 "") = true /\
   listing gallery3 fresh = []) /\
  (In EvLaunch (trace run3) ->
   exists rest, trace run3 = EvMkdir d :: EvReaddir d :: EvLaunch :: rest).
Proof.
  apply (browser_launched_only_after_checks gallery3 lenient_tail argv3
           "/home/user/app" 10 fresh (world run3) (outcome run3)).
  vm_compute. reflexivity.
Defined.

Lemma counted_photos_are_distinct_files_witness :
  NoDup (confirmed_names (trace run3)) /\
  (forall n, In n (confirmed_names (trace run3)) ->
             In n (map name (dir (world run3)))) /\
  confirmations (trace run3) <= List.length (dir (world run3)).
Proof.
  apply (counted_photos_are_distinct_files gallery3 lenient_tail argv3
           "/home/user/app" 10 fresh (world run3) (outcome run3)).
  - vm_compute. reflexivity.
  - assert (nreaddir (world run3) = 8) as -> by (vm_compute; reflexivity).
    intros i f _ Hi Hin Hm.
    do 7 (destruct i as [|i];
          [simpl in Hin; repeat (destruct Hin as [<-|Hin]);
           solve [discriminate Hm | destruct Hin | simpl; tauto]|]).
    lia.
Defined.

Example three_photos_with_partial_files :
  confirmed_names (trace run3) = ["a.jpg"; "b.jpg"; "c.jpg"] /\
  map name (dir (world run3)) = ["c.jpg"; "b.jpg"; "a.jpg"] /\
  In (file "a.jpg.crdownload") (env_readdir gallery3 2) /\
  ~ In (file "a.jpg.crdownload") (env_readdir gallery3 3).
Proof.
  split; [vm_compute; reflexivity|]. split; [vm_compute; reflexivity|].
  split; [simpl; auto|]. simpl. intros [H|[]]. discriminate H.
Qed.

Example single_photo :
  outcome run_single = Ret tt /\
  confirmed_names (trace run_single) = ["a.jpg"] /\
  reported_count (trace run_single) = Some 1.
Proof. vm_compute. repeat split. Qed.

Lemma watcher_misses_earlier_download_witness :
  (forall f,
     outcome (waitForDownloadCompletion already_there 5 photos watching)
       <> Ret f) /\
  (forall T, T < 5 ->
     (TIMEOUTS.DOWNLOAD <= elapsed already_there watching T)%Z ->
     outcome (waitForDownloadCompletion already_there 5 photos watching)
       = Throw download_timed_out).
Proof.
  apply (watcher_misses_earlier_download already_there 5 photos watching).
  intros i g H. left. exact H.
Defined.

Example finished_download_is_missed :
  outcome (waitForDownloadCompletion already_there 5 photos watching)
    = Throw download_timed_out.
Proof. vm_compute. reflexivity. Qed.

Lemma second_run_is_rejected_witness :
  dir (world run_single) <> [] /\ session (world run_single) = false /\
  forall env2 fuel2 url2,
    let d := path_join "/home/user/app" DOWNLOAD_DIR in
    let r := main_catch env2 fuel2 "/home/user/app" url2 (world run_single) in
    outcome r = Exit 1%Z /\
    trace r =
      [EvMkdir d; EvReaddir d;
       EvError (ERROR_MESSAGE
                  (directory_not_empty d
                     (List.length (dir (world run_single)))));
       EvExit 1%Z] /\
    dir (world r) = dir (world run_single) /\
    ncall (world r) = ncall (world run_single).
Proof.
  apply (second_run_is_rejected single lenient_tail argv3 "/home/user/app" 5
           fresh (world run_single) (trace run_single)).
  vm_compute. reflexivity.
Defined.
